(** * Aureus Agentic OS: the policy-engine stub and the Python SDK models

    A shallow embedding of [app.py] (the Flask policy-engine stub) and of
    the pydantic models and client of [packages/sdk-python/aureus_sdk],
    followed by the properties of the specification that concern them. *)

From Stdlib Require Import ZArith QArith Ascii String List Lia.
From stdpp Require Import base option list strings gmap fin_maps.

Local Open Scope string_scope.
Local Open Scope Z_scope.

(** * Python values *)

(** A Python [float]: a finite value (every finite double is a rational),
    an infinity, or not-a-number. *)
Inductive float : Type :=
| Finite (q : Q)
| PosInf
| NegInf
| NaN.

(** [x <= y] on floats; every comparison with not-a-number is false. *)
Definition fle (x y : float) : bool :=
  match x, y with
  | NaN, _ | _, NaN => false
  | NegInf, _ => true
  | _, PosInf => true
  | Finite a, Finite b => Qle_bool a b
  | _, _ => false
  end.

(** The values [json.loads] produces: [None], [bool], [int], [float],
    [str], [list] and [dict] with string keys. *)
#[warnings="-register-all"]
Inductive json : Type :=
| JNull
| JBool (b : bool)
| JInt (n : Z)
| JFloat (x : float)
| JStr (s : string)
| JArr (l : list json)
| JObj (m : gmap string json).

(** [type(v).__name__] *)
Definition py_type_name (v : json) : string :=
  match v with
  | JNull => "NoneType"
  | JBool _ => "bool"
  | JInt _ => "int"
  | JFloat _ => "float"
  | JStr _ => "str"
  | JArr _ => "list"
  | JObj _ => "dict"
  end.

(** Truthiness: [None], [False], zero, and the empty string, list and dict
    are falsy. *)
Definition py_truthy (v : json) : bool :=
  match v with
  | JNull => false
  | JBool b => b
  | JInt n => negb (n =? 0)%Z
  | JFloat (Finite q) => negb (Qeq_bool q 0)
  | JFloat _ => true
  | JStr s => negb (String.eqb s EmptyString)
  | JArr l => match l with [] => false | _ => true end
  | JObj m => negb (bool_decide (m = ∅))
  end.

(** The exceptions the modelled code can raise. *)
Inductive exn : Type :=
| AttributeError (type_name attr : string)
| TypeError (msg : string)
| HTTPStatusError (status_code : Z)
| HTTPException (code : Z).

(** ** Strings *)

Module Str.

(** [c.lower()] on one character: the letters [A]..[Z] move to [a]..[z],
    every other character is left as it is. *)
Definition lower_char (c : ascii) : ascii :=
  let n := nat_of_ascii c in
  if ((65 <=? n) && (n <=? 90))%nat then ascii_of_nat (n + 32) else c.

Definition upper_char (c : ascii) : ascii :=
  let n := nat_of_ascii c in
  if ((97 <=? n) && (n <=? 122))%nat then ascii_of_nat (n - 32) else c.

(** [s.lower()] *)
Fixpoint lower (s : string) : string :=
  match s with
  | EmptyString => EmptyString
  | String c s' => String (lower_char c) (lower s')
  end.

(** [s.capitalize()]: first character upper-cased, the rest lower-cased. *)
Definition capitalize (s : string) : string :=
  match s with
  | EmptyString => EmptyString
  | String c s' => String (upper_char c) (lower s')
  end.

(** [p] is a prefix of [s] *)
Fixpoint starts_with (p s : string) : bool :=
  match p, s with
  | EmptyString, _ => true
  | String a p', String b s' => if Ascii.eqb a b then starts_with p' s' else false
  | String _ _, EmptyString => false
  end.

(** [sub in s] *)
Fixpoint contains (sub s : string) : bool :=
  if starts_with sub s then true
  else match s with
       | EmptyString => false
       | String _ s' => contains sub s'
       end.

End Str.

(** * [app.py]: the policy-engine stub *)

Module App.

(** ** The world the handlers run in *)

(** What [logger.info] and [logger.error] receive, kept structured. *)
Inductive log_event : Type :=
| LogEvaluating (action : json)
| LogComplete (risk_level : string) (risk_score : Z) (approval_required : bool)
| LogError (e : exn).

(** The state behind the module-level effects: the generator of the
    [random] module as an unbounded tape of raw draws with a cursor, the
    clock read by [time.time()] and [datetime.utcnow()], and the log. *)
Record world : Type := World {
  draws : nat → Z;
  cursor : nat;
  unix_time : Z;
  utc_iso : string;
  log : list log_event
}.

(** Computations that read and write the world and may raise. *)
Definition M (A : Type) : Type := world → (exn + A) * world.

Definition ret {A} (a : A) : M A := λ w, (inr a, w).
Definition raise {A} (e : exn) : M A := λ w, (inl e, w).
Definition bind {A B} (m : M A) (k : A → M B) : M B :=
  λ w, match m w with
       | (inl e, w') => (inl e, w')
       | (inr a, w') => k a w'
       end.
(** [try: m except Exception as e: h e] *)
Definition try_except {A} (m : M A) (h : exn → M A) : M A :=
  λ w, match m w with
       | (inl e, w') => h e w'
       | (inr a, w') => (inr a, w')
       end.

#[global] Instance M_ret : MRet M := @ret.
#[global] Instance M_bind : MBind M := λ A B k m, bind m k.

(** [random.randint(lo, hi)]: an integer [n] with [lo <= n <= hi], taken
    from the next raw draw. *)
Definition next_randint (lo hi : Z) (w : world) : Z :=
  lo + draws w (cursor w) `mod` (hi - lo + 1).
Definition advance (w : world) : world :=
  World (draws w) (S (cursor w)) (unix_time w) (utc_iso w) (log w).
Definition randint (lo hi : Z) : M Z :=
  λ w, (inr (next_randint lo hi w), advance w).

Definition logged (ev : log_event) (w : world) : world :=
  World (draws w) (cursor w) (unix_time w) (utc_iso w) (log w ++ [ev])%list.
Definition logger (ev : log_event) : M unit :=
  λ w, (inr tt, logged ev w).

Definition time_time : M Z := λ w, (inr (unix_time w), w).
Definition utcnow_isoformat : M string := λ w, (inr (utc_iso w), w).

(** ** Dictionary access on request data *)

(** [obj.get(key, default)]: only a [dict] has [get]. *)
Definition py_get (obj : json) (key : string) (default_value : json) : M json :=
  match obj with
  | JObj m => ret (default default_value (m !! key))
  | _ => raise (AttributeError (py_type_name obj) "get")
  end.

(** [key in container]: key membership for a [dict], element membership
    for a [list], substring for a [str]; the other types are not
    iterable. *)
Definition py_in (key : string) (container : json) : M bool :=
  match container with
  | JObj m => ret (bool_decide (is_Some (m !! key)))
  | JArr l => ret (existsb (λ v, match v with JStr s => String.eqb s key | _ => false end) l)
  | JStr s => ret (Str.contains key s)
  | _ => raise (TypeError ("argument of type '" +:+ py_type_name container
                           +:+ "' is not iterable"))
  end.

(** ** Tables *)

Definition RISK_THRESHOLDS : gmap string Z :=
  list_to_map [("low", 30); ("medium", 70); ("high", 100)].

Definition ACTION_RISKS : gmap string Z :=
  list_to_map
    [("read_document", 10); ("send_email", 25); ("create_task", 20);
     ("update_record", 35); ("delete_record", 85); ("delete_database", 95);
     ("execute_code", 90); ("modify_permissions", 80);
     ("transfer_funds", 95); ("access_admin", 85)].

(** [ACTION_RISKS.get(action, default)]: a [list] or [dict] key is
    unhashable; any other key that is not one of the table's strings gets
    the default. *)
Definition ACTION_RISKS_get (action : json) (default_value : Z) : M Z :=
  match action with
  | JStr a => ret (default default_value (ACTION_RISKS !! a))
  | JArr _ | JObj _ =>
      raise (TypeError ("unhashable type: '" +:+ py_type_name action +:+ "'"))
  | _ => ret default_value
  end.

(** [user_id.lower()]: only a [str] has [lower]. *)
Definition py_lower (v : json) : M string :=
  match v with
  | JStr s => ret (Str.lower s)
  | _ => raise (AttributeError (py_type_name v) "lower")
  end.

(** ** [calculate_risk_score] *)

Definition calculate_risk_score (context : json) : M Z :=
  intent ← py_get context "intent" (JObj ∅);
  action ← py_get intent "action" (JStr "unknown");
  intent ← py_get context "intent" (JObj ∅);
  user_id ← py_get intent "user_id" (JStr "unknown");
  (* Base risk from action type *)
  base_risk ← ACTION_RISKS_get action 50;
  (* Modify based on user (simulate trusted users) *)
  lowered ← py_lower user_id;
  let base_risk :=
    if Str.contains "admin" lowered || Str.contains "privileged" lowered
    then Z.max 0 (base_risk - 15)
    else base_risk in
  (* Add randomness for demo purposes *)
  r ← randint (-5) 10;
  let risk_score := base_risk + r in
  let risk_score := Z.max 0 (Z.min 100 risk_score) in
  mret risk_score.

(** ** [assess_risk_level] *)

Definition assess_risk_level (score : Z) : string :=
  if score <? RISK_THRESHOLDS !!! "low" then "low"
  else if score <? RISK_THRESHOLDS !!! "medium" then "medium"
  else "high".

(** ** [generate_plan] *)

(** An f-string, kept as its parts: the literal text and the values
    formatted into it. *)
Inductive fpart : Type :=
| FLit (s : string)
| FJson (v : json)
| FInt (n : Z).
Definition fstring : Type := list fpart.

Record step : Type := Step {
  step_id : Z;
  step_type : string;
  step_action : option json;
  step_parameters : option json;
  step_description : fstring;
  step_required : bool
}.

Record risk_assessment : Type := RiskAssessment {
  score : Z;
  level : string;
  factors : list fstring
}.

Record execution_plan : Type := ExecutionPlan {
  steps : list step;
  estimated_duration_ms : Z;
  rollback_supported : bool
}.

Record policy_metadata : Type := PolicyMetadata {
  policy_version : string;
  evaluation_time_ms : Z;
  policies_applied : list string
}.

Record plan : Type := Plan {
  intent_id : json + fstring;
  timestamp : string;
  plan_risk_assessment : risk_assessment;
  approval_required : bool;
  approval_reason : option fstring;
  plan_execution_plan : execution_plan;
  plan_policy_metadata : policy_metadata
}.

(** [len(obj)] *)
Definition py_len (obj : json) : M Z :=
  match obj with
  | JObj m => ret (Z.of_nat (size m))
  | JArr l => ret (Z.of_nat (length l))
  | JStr s => ret (Z.of_nat (String.length s))
  | _ => raise (TypeError ("object of type '" +:+ py_type_name obj +:+ "' has no len()"))
  end.

Definition generate_plan (context : json) (risk_score : Z) (risk_level : string)
  : M plan :=
  intent ← py_get context "intent" (JObj ∅);
  action ← py_get intent "action" (JStr "unknown");
  parameters ← py_get intent "parameters" (JObj ∅);
  (* Determine if approval is required *)
  let requires_approval :=
    bool_decide (risk_level ∈ ["high"; "medium"]) in
  (* Generate execution steps *)
  let steps : list step := [] in
  (* Pre-execution validation *)
  let steps := (steps ++
    [Step 1 "validate" None None
          [FLit "Validate "; FJson action; FLit " parameters"] true])%list in
  (* Main action *)
  let steps := (steps ++
    [Step 2 "execute" (Some action) (Some parameters)
          [FLit "Execute "; FJson action] true])%list in
  (* Post-execution audit *)
  let steps := (steps ++
    [Step 3 "audit" None None
          [FLit "Log "; FJson action; FLit " execution to audit trail"] true])%list in
  now ← time_time;
  plan_intent_id ← match intent with
                   | JObj m => ret (match m !! "intent_id" with
                                    | Some v => inl v
                                    | None => inr [FLit "intent_"; FInt now]
                                    end)
                   | _ => raise (AttributeError (py_type_name intent) "get")
                   end;
  iso ← utcnow_isoformat;
  user ← py_get intent "user_id" (JStr "unknown");
  fields ← py_len context;
  eval_ms ← randint 50 150;
  mret (Plan
          plan_intent_id
          (iso +:+ "Z")
          (RiskAssessment risk_score risk_level
             [[FLit "Action type: "; FJson action];
              [FLit "User: "; FJson user];
              [FLit "Context: "; FInt fields; FLit " fields provided"]])
          requires_approval
          (if requires_approval
           then Some [FLit (Str.capitalize risk_level);
                      FLit " risk action requires review"]
           else None)
          (ExecutionPlan steps (Z.of_nat (length steps) * 100) true)
          (PolicyMetadata "1.0.0" eval_ms
             ["global_security"; "user_permissions"; "action_registry"])).

(** ** The [/api/policy/evaluate] handler *)

(** The text of an error body: a literal, or [str(e)] of the exception
    caught. *)
Inductive message : Type :=
| Literal (s : string)
| StrOf (e : exn).

Inductive body : Type :=
| ErrorBody (error : string) (msg : message)
| PlanBody (p : plan).

Record response : Type := Response {
  payload : body;
  status : Z
}.

(** [evaluate_policy], from the point where [request.json] has produced
    the parsed body [context]; [JNull] is Python's [None], what the
    literal body [null] parses to.  A request without a body has no
    parsed body: see [evaluate_policy_request]. *)
Definition evaluate_policy (context : json) : M response :=
  try_except
    (invalid ← (if negb (py_truthy context) then ret true
                else present ← py_in "intent" context; ret (negb present));
     if (invalid : bool) then
       ret (Response (ErrorBody "Invalid request"
                        (Literal "Context with intent is required")) 400)
     else
       intent ← py_get context "intent" (JObj ∅);
       action ← match intent with
                | JObj m => ret (default JNull (m !! "action"))
                | _ => raise (AttributeError (py_type_name intent) "get")
                end;
       logger (LogEvaluating action);;
       (* Calculate risk *)
       risk_score ← calculate_risk_score context;
       let risk_level := assess_risk_level risk_score in
       (* Generate plan *)
       plan ← generate_plan context risk_score risk_level;
       logger (LogComplete risk_level risk_score (approval_required plan));;
       ret (Response (PlanBody plan) 200))
    (λ e,
       logger (LogError e);;
       ret (Response (ErrorBody "Policy evaluation failed" (StrOf e)) 500)).

(** The whole of [evaluate_policy], [context = request.json] included.
    [request_json] is what evaluating [request.json] does: it yields the
    parsed body, or it raises, as Flask does on a request that has no
    JSON body ([HTTPException], 415 or 400).  The assignment is inside the
    [try], so what it raises is caught like every other exception. *)
Definition evaluate_policy_request (request_json : exn + json) : M response :=
  try_except
    (context ← match request_json with
               | inr parsed => ret parsed
               | inl e => raise e
               end;
     evaluate_policy context)
    (λ e,
       logger (LogError e);;
       ret (Response (ErrorBody "Policy evaluation failed" (StrOf e)) 500)).

End App.

(** * [aureus_sdk]: the pydantic models *)

(** ** Field validation *)

(** A model is a record of its fields at their declared types: [int] is
    [Z], [float] is [float] above, [Optional[T]] is [option T], an [Enum]
    is an inductive type, [Dict[str, Any]] is a finite map to [json].  What
    construction then checks is the constraints the fields declare, nested
    models included; it raises the collected [ValidationError] if one
    fails and returns the instance otherwise. *)

Module Pydantic.

(** One line of a [ValidationError]: the error type and the field. *)
Record error_detail : Type := ErrorDetail {
  error_type : string;
  loc : list string
}.

(** A [ValidationError] carries every failed constraint of the value. *)
Definition ValidationError : Type := list error_detail.

(** [Field(..., ge=bound)] on an [int] *)
Definition ge_int (field : string) (bound v : Z) : list error_detail :=
  if bound <=? v then [] else [ErrorDetail "greater_than_equal" [field]].

(** [Field(..., ge=bound)] on a [float]: the value must compare [>=]. *)
Definition ge_float (field : string) (bound : Q) (v : float) : list error_detail :=
  if fle (Finite bound) v then [] else [ErrorDetail "greater_than_equal" [field]].

(** [Field(..., le=bound)] on a [float]: the value must compare [<=]. *)
Definition le_float (field : string) (bound : Q) (v : float) : list error_detail :=
  if fle v (Finite bound) then [] else [ErrorDetail "less_than_equal" [field]].

(** A constraint on an [Optional] field is checked when a value is given. *)
Definition optional {A} (check : A → list error_detail) (v : option A)
  : list error_detail :=
  match v with
  | Some a => check a
  | None => []
  end.

(** The errors of a nested model, located under the field holding it. *)
Definition nested (field : string) (errs : list error_detail) : list error_detail :=
  (λ e, ErrorDetail (error_type e) (field :: loc e)) <$> errs.

(** Construction succeeds with the instance when no constraint failed and
    raises the collected [ValidationError] otherwise. *)
Definition construct {A} (errs : list error_detail) (a : A) : ValidationError + A :=
  match errs with
  | [] => inr a
  | _ :: _ => inl errs
  end.

End Pydantic.
Import Pydantic.

(** ** [models/common.py] *)

Inductive RiskTier : Type := LOW | MEDIUM | HIGH | CRITICAL.
Inductive Intent : Type := READ | WRITE | DELETE | EXECUTE | ADMIN.
Inductive DataZone : Type := PUBLIC | INTERNAL | CONFIDENTIAL | RESTRICTED.

Module Permission.
Record t : Type := Make {
  action : string;
  resource : string;
  intent : option Intent;
  data_zone : option DataZone;
  conditions : option (gmap string json)
}.
Definition errors (p : t) : list error_detail := [].
Definition model_validate (p : t) : ValidationError + t := construct (errors p) p.
End Permission.

(** ** [models/workflow.py] *)

Inductive SandboxType : Type := MOCK | SIMULATION | CONTAINER | VM | PROCESS.
Inductive TaskType : Type := ACTION | DECISION | PARALLEL.

Module RetryConfig.
Record t : Type := Make {
  max_attempts : Z;
  backoff_ms : Z;
  backoff_multiplier : option float;
  jitter : option bool
}.
Definition errors (r : t) : list error_detail :=
  ge_int "max_attempts" 1 (max_attempts r)
  ++ ge_int "backoff_ms" 1 (backoff_ms r)
  ++ optional (ge_float "backoff_multiplier" 0) (backoff_multiplier r).
Definition model_validate (r : t) : ValidationError + t := construct (errors r) r.
End RetryConfig.

Module CompensationAction.
Record t : Type := Make {
  tool : string;
  args : gmap string json
}.
Definition errors (c : t) : list error_detail := [].
Definition model_validate (c : t) : ValidationError + t := construct (errors c) c.
End CompensationAction.

Module CompensationHook.
Record t : Type := Make {
  on_failure : option string;
  on_timeout : option string
}.
Definition errors (c : t) : list error_detail := [].
Definition model_validate (c : t) : ValidationError + t := construct (errors c) c.
End CompensationHook.

Module SandboxConfig.
Record t : Type := Make {
  enabled : bool;
  type : option SandboxType;
  simulation_mode : option bool;
  permissions : option (gmap string json)
}.
Definition errors (c : t) : list error_detail := [].
Definition model_validate (c : t) : ValidationError + t := construct (errors c) c.
End SandboxConfig.

Module TaskSpec.
Record t : Type := Make {
  id : string;
  name : string;
  type : TaskType;
  inputs : option (gmap string json);
  retry : option RetryConfig.t;
  idempotency_key : option string;
  timeout_ms : option Z;
  risk_tier : option RiskTier;
  compensation : option CompensationHook.t;
  compensation_action : option CompensationAction.t;
  tool_name : option string;
  required_permissions : option (list Permission.t);
  allowed_tools : option (list string);
  intent : option Intent;
  data_zone : option DataZone;
  sandbox_config : option SandboxConfig.t
}.
Definition errors (s : t) : list error_detail :=
  nested "retry" (optional RetryConfig.errors (retry s))
  ++ optional (ge_int "timeout_ms" 1) (timeout_ms s)
  ++ nested "compensation" (optional CompensationHook.errors (compensation s))
  ++ nested "compensation_action"
       (optional CompensationAction.errors (compensation_action s))
  ++ nested "required_permissions"
       (optional (λ ps, ps ≫= Permission.errors) (required_permissions s))
  ++ nested "sandbox_config" (optional SandboxConfig.errors (sandbox_config s)).
Definition model_validate (s : t) : ValidationError + t := construct (errors s) s.
End TaskSpec.

Module SafetyRule.
Record t : Type := Make {
  type : string;
  description : option string
}.
Definition errors (r : t) : list error_detail := [].
Definition model_validate (r : t) : ValidationError + t := construct (errors r) r.
End SafetyRule.

Module SafetyPolicy.
Record t : Type := Make {
  name : string;
  description : option string;
  rules : list SafetyRule.t;
  fail_fast : option bool
}.
Definition errors (p : t) : list error_detail :=
  nested "rules" (rules p ≫= SafetyRule.errors).
Definition model_validate (p : t) : ValidationError + t := construct (errors p) p.
End SafetyPolicy.

Module WorkflowSpec.
Record t : Type := Make {
  id : string;
  name : string;
  goal : option string;
  constraints : option (list string);
  success_criteria : option (list string);
  tasks : list TaskSpec.t;
  dependencies : gmap string (list string);
  safety_policy : option SafetyPolicy.t
}.
Definition errors (w : t) : list error_detail :=
  nested "tasks" (tasks w ≫= TaskSpec.errors)
  ++ nested "safety_policy" (optional SafetyPolicy.errors (safety_policy w)).
Definition model_validate (w : t) : ValidationError + t := construct (errors w) w.
End WorkflowSpec.

(** ** [models/execution.py] *)

Module TaskExecutionResult.
Record t : Type := Make {
  task_id : string;
  status : string;
  result : option json;
  error : option string;
  duration_ms : option float
}.
(** [status] is declared [str]: the three values named in its
    description are not a constraint. *)
Definition errors (r : t) : list error_detail := [].
Definition model_validate (r : t) : ValidationError + t := construct (errors r) r.
End TaskExecutionResult.

(** ** [models/crv.py] *)

Inductive FailureTaxonomy : Type :=
| MISSING_DATA | CONFLICT | OUT_OF_SCOPE | LOW_CONFIDENCE
| POLICY_VIOLATION | TOOL_ERROR | NON_DETERMINISM.

Module ValidationResult.
Record t : Type := Make {
  valid : bool;
  reason : option string;
  confidence : option float;
  metadata : option (gmap string json);
  failure_code : option FailureTaxonomy;
  remediation : option string
}.
Definition errors (r : t) : list error_detail :=
  optional (λ c, (ge_float "confidence" 0 c ++ le_float "confidence" 1 c)%list)
           (confidence r).
Definition model_validate (r : t) : ValidationError + t := construct (errors r) r.
End ValidationResult.

Module GateConfig.
Record t : Type := Make {
  name : string;
  validators : list string;
  block_on_failure : bool;
  required_confidence : option float;
  recovery_strategy : option (gmap string json)
}.
Definition errors (g : t) : list error_detail :=
  optional (λ c, (ge_float "required_confidence" 0 c
                  ++ le_float "required_confidence" 1 c)%list)
           (required_confidence g).
Definition model_validate (g : t) : ValidationError + t := construct (errors g) g.
End GateConfig.

(** ** [models/policy.py] *)

Inductive PolicyRiskTier : Type := low | medium | high | critical.

Module Action.
Record t : Type := Make {
  id : string;
  name : string;
  risk_tier : PolicyRiskTier;
  required_permissions : list Permission.t;
  intent : option Intent;
  data_zone : option DataZone;
  allowed_tools : option (list string);
  metadata : option (gmap string json)
}.
Definition errors (a : t) : list error_detail :=
  nested "required_permissions" (required_permissions a ≫= Permission.errors).
Definition model_validate (a : t) : ValidationError + t := construct (errors a) a.
End Action.

Module Principal.
Record t : Type := Make {
  id : string;
  type : string;
  permissions : list Permission.t
}.
Definition errors (p : t) : list error_detail :=
  nested "permissions" (permissions p ≫= Permission.errors).
Definition model_validate (p : t) : ValidationError + t := construct (errors p) p.
End Principal.

Module ApprovalToken.
Record t : Type := Make {
  token : string;
  action_id : string;
  principal : Principal.t;
  expires_at : string;
  used : bool
}.
Definition errors (a : t) : list error_detail :=
  nested "principal" (Principal.errors (principal a)).
Definition model_validate (a : t) : ValidationError + t := construct (errors a) a.

(** *** Consumption *)

Inductive outcome : Type :=
| Approved
| ApprovalTokenReused.
#[global] Instance outcome_eq_dec : EqDecision outcome.
Proof. solve_decision. Defined.

(** Modelled from the spec: the consumption of a token, of which the
    sources hold the record and its [used] flag only.  Consumption is the
    atomic check-and-mark-used of the specification: an unused token is
    marked used and the attempt succeeds, a used one makes the attempt
    fail with [ApprovalTokenReused]. *)
Definition consume (a : t) : outcome * t :=
  if used a then (ApprovalTokenReused, a)
  else (Approved, Make (token a) (action_id a) (principal a) (expires_at a) true).

(** Modelled from the spec: concurrent attempts on one shared token.
    Every caller makes one attempt, pending until the scheduler runs it;
    running it is one atomic [consume] of the shared token, and the
    scheduler may run the pending attempts in any order. *)
Inductive attempt : Type :=
| Pending
| Finished (o : outcome).
#[global] Instance attempt_eq_dec : EqDecision attempt.
Proof. solve_decision. Defined.

Record race : Type := Race {
  shared : t;
  attempts : list attempt
}.

Definition start (a : t) (callers : nat) : race :=
  Race a (replicate callers Pending).

(** The scheduler runs the attempt of caller [i]. *)
Definition run_attempt (i : nat) (s : race) : race :=
  match attempts s !! i with
  | Some Pending =>
      Race (consume (shared s)).2
           (<[i := Finished (consume (shared s)).1]> (attempts s))
  | _ => s
  end.

Definition step (s s' : race) : Prop :=
  ∃ i, attempts s !! i = Some Pending ∧ s' = run_attempt i s.

(** Every attempt has been run. *)
Definition quiescent (s : race) : Prop := Pending ∉ attempts s.

End ApprovalToken.

(** * [client.py] *)

Module AureusClient.

(** What the HTTP client hands back: the status code and the parsed
    JSON body. *)
Record Response : Type := MakeResponse {
  status_code : Z;
  json_body : json
}.

(** [response.raise_for_status()] of httpx: a response outside the 2xx
    range raises [HTTPStatusError]. *)
Definition raise_for_status (response : Response) : exn + unit :=
  if (200 <=? status_code response) && (status_code response <=? 299)
  then inr tt
  else inl (HTTPStatusError (status_code response)).

(** The request [check_permission] posts. *)
Record CheckPayload : Type := MakeCheckPayload {
  payload_principal : Principal.t;
  payload_action : Action.t
}.

Section Transport.
(** [self._client.post(url, json=payload)]: the server on the other
    side of the transport. *)
Variable post : string → CheckPayload → Response.

Definition check_permission (principal : Principal.t) (action : Action.t)
  : exn + json :=
  let payload := MakeCheckPayload principal action in
  let response := post "/api/v1/policy/check" payload in
  match raise_for_status response with
  | inl e => inl e
  | inr _ =>
      let result := json_body response in
      match result with
      | JObj m => inr (default (JBool false) (m !! "allowed"))
      | _ => inl (AttributeError (py_type_name result) "get")
      end
  end.
End Transport.

End AureusClient.

(** * The specification's notions *)

Module Spec.
Import App.

(** ** Risk scoring *)

(** [sub] occurs in [s] when the case of letters is ignored: some stretch
    of [s] reads [sub] once lower-cased. *)
Definition contains_ignoring_case (sub s : string) : Prop :=
  ∃ pre mid post, s = pre +:+ mid +:+ post ∧ Str.lower mid = sub.

(** The users whose risk is lowered. *)
Definition trusted_user (user_id : string) : Prop :=
  contains_ignoring_case "admin" user_id
  ∨ contains_ignoring_case "privileged" user_id.

(** The risk of an action in the table, 50 for an action not listed. *)
Definition table_risk (action : string) : Z :=
  match ACTION_RISKS !! action with
  | Some risk => risk
  | None => 50
  end.

(** A context in the documented shape: an object whose [intent], when
    given, is an object, with the strings [action] and [user_id] that
    [calculate_risk_score] reads (['unknown'] when left out). *)
Definition context_reads (context : json) (action user_id : string) : Prop :=
  ∃ c i, context = JObj c
         ∧ default (JObj ∅) (c !! "intent") = JObj i
         ∧ default (JStr "unknown") (i !! "action") = JStr action
         ∧ default (JStr "unknown") (i !! "user_id") = JStr user_id.

(** The handler reached the risk evaluation of a request: the
    ["Evaluating policy"] line that precedes it was logged. *)
Definition proceeds_to_risk_evaluation (context : json) (w : world) : Prop :=
  ∃ action rest,
    log (evaluate_policy context w).2
    = (log w ++ LogEvaluating action :: rest)%list.

(** The same, of the whole handler on a request. *)
Definition request_proceeds_to_risk_evaluation (request_json : exn + json)
    (w : world) : Prop :=
  ∃ action rest,
    log (evaluate_policy_request request_json w).2
    = (log w ++ LogEvaluating action :: rest)%list.

Definition invalid_request : response :=
  Response (ErrorBody "Invalid request" (Literal "Context with intent is required")) 400.

Definition evaluation_failed (e : exn) : response :=
  Response (ErrorBody "Policy evaluation failed" (StrOf e)) 500.

(** ** Model invariants *)

(** [x <= y] on floats, as a relation on the values they denote. *)
Inductive float_le : float → float → Prop :=
| le_finite a b : (a <= b)%Q → float_le (Finite a) (Finite b)
| le_neg_inf y : y ≠ NaN → float_le NegInf y
| le_pos_inf x : x ≠ NaN → float_le x PosInf.

(** [x < y] on floats. *)
Inductive float_lt : float → float → Prop :=
| lt_finite a b : (a < b)%Q → float_lt (Finite a) (Finite b)
| lt_neg_inf_finite b : float_lt NegInf (Finite b)
| lt_finite_pos_inf a : float_lt (Finite a) PosInf
| lt_neg_inf_pos_inf : float_lt NegInf PosInf.

(** A confidence lies in the unit interval. *)
Definition in_unit_interval (c : float) : Prop :=
  ∃ q, c = Finite q ∧ (0 <= q)%Q ∧ (q <= 1)%Q.

(** The bounds of a retry configuration. *)
Definition retry_bounds (r : RetryConfig.t) : Prop :=
  1 ≤ RetryConfig.max_attempts r
  ∧ 1 ≤ RetryConfig.backoff_ms r
  ∧ ∀ m, RetryConfig.backoff_multiplier r = Some m → float_le (Finite 0) m.

(** ** Approval tokens *)

(** Exactly one attempt of the race was approved. *)
Definition one_approval (s : ApprovalToken.race) : Prop :=
  ∃ winner,
    ApprovalToken.attempts s !! winner
    = Some (ApprovalToken.Finished ApprovalToken.Approved)
    ∧ ∀ j, ApprovalToken.attempts s !! j
           = Some (ApprovalToken.Finished ApprovalToken.Approved) → j = winner.

(** What holds all along a race on a token that started unused: either
    the token is unused and no attempt has run, or it is used and exactly
    one attempt was approved. *)
Definition race_invariant (s : ApprovalToken.race) : Prop :=
  (ApprovalToken.used (ApprovalToken.shared s) = false
   ∧ ∀ j x, ApprovalToken.attempts s !! j = Some x → x = ApprovalToken.Pending)
  ∨ (ApprovalToken.used (ApprovalToken.shared s) = true ∧ one_approval s).

(** ** The dependency graph of a workflow *)

Section Graph.
Variable w : WorkflowSpec.t.

Definition task_ids : list string := TaskSpec.id <$> WorkflowSpec.tasks w.

(** [t] lists [d] among its dependencies. *)
Definition depends_on (t d : string) : Prop :=
  ∃ ds, WorkflowSpec.dependencies w !! t = Some ds ∧ d ∈ ds.

Definition no_self_loops : Prop := ∀ t, ¬ depends_on t t.

Definition no_dangling_references : Prop :=
  ∀ t d, depends_on t d → t ∈ task_ids ∧ d ∈ task_ids.

(** A chain of one or more dependency edges. *)
Inductive reaches : string → string → Prop :=
| reaches_edge t d : depends_on t d → reaches t d
| reaches_step t d e : depends_on t d → reaches d e → reaches t e.

Definition acyclic : Prop := ∀ t, ¬ reaches t t.

Definition is_dag : Prop :=
  no_self_loops ∧ no_dangling_references ∧ acyclic.
End Graph.

End Spec.

(** * Sample values *)

Module Samples.
Import App.

(** A world whose raw draws count up from zero. *)
Definition world0 : world :=
  World (λ k, Z.of_nat k) 0 1700000000 "2026-01-01T00:00:00" [].

Definition email_context : json :=
  JObj {[ "intent" := JObj {[ "action" := JStr "send_email";
                              "user_id" := JStr "user123" ]} ]}.

Definition admin_context : json :=
  JObj {[ "intent" := JObj {[ "action" := JStr "delete_record";
                              "user_id" := JStr "Admin-7" ]} ]}.

(** A body with an [intent] key whose value is not an object. *)
Definition numeric_intent : json := JObj {[ "intent" := JInt 5 ]}.

Definition task (task_id : string) : TaskSpec.t :=
  TaskSpec.Make task_id "Task" ACTION None None None None None None None
                None None None None None None.

Definition workflow (tasks : list TaskSpec.t) (deps : gmap string (list string))
  : WorkflowSpec.t :=
  WorkflowSpec.Make "test-workflow" "Test Workflow" None None None tasks deps None.

(** [task1] depends on itself. *)
Definition self_loop_workflow : WorkflowSpec.t :=
  workflow [task "task1"] {[ "task1" := ["task1"] ]}.

(** [task1] depends on a task that is not in the list. *)
Definition dangling_workflow : WorkflowSpec.t :=
  workflow [task "task1"] {[ "task1" := ["ghost"] ]}.

(** [task1] and [task2] depend on each other. *)
Definition cyclic_workflow : WorkflowSpec.t :=
  workflow [task "task1"; task "task2"]
           {[ "task1" := ["task2"]; "task2" := ["task1"] ]}.

Definition running_result : TaskExecutionResult.t :=
  TaskExecutionResult.Make "task1" "running" None None None.

Definition principal : Principal.t := Principal.Make "user-001" "human" [].

Definition read_data : Action.t :=
  Action.Make "read-data" "Read Data" low [] None None None None.

Definition retry_three : RetryConfig.t :=
  RetryConfig.Make 3 1000 (Some (Finite 2)) (Some true).

Definition retry_zero_attempts : RetryConfig.t :=
  RetryConfig.Make 0 1000 None None.

Definition task_negative_timeout : TaskSpec.t :=
  TaskSpec.Make "task1" "Test Task" ACTION None None None (Some (-1)) None None
                None None None None None None None.

Definition confident_result : ValidationResult.t :=
  ValidationResult.Make true None (Some (Finite (95 # 100))) None None None.

Definition overconfident_result : ValidationResult.t :=
  ValidationResult.Make true None (Some (Finite (3 # 2))) None None None.

Definition gate : GateConfig.t :=
  GateConfig.Make "gate" ["schema"] true (Some (Finite (8 # 10))) None.

Definition fresh_token : ApprovalToken.t :=
  ApprovalToken.Make "tok-1" "read-data" principal "2026-01-01T00:00:00Z" false.

(** A server that refuses with 403 and an empty object. *)
Definition forbidden_server (url : string) (payload : AureusClient.CheckPayload)
  : AureusClient.Response :=
  AureusClient.MakeResponse 403 (JObj ∅).

(** A server that answers 200 with [{"allowed": true}]. *)
Definition allowing_server (url : string) (payload : AureusClient.CheckPayload)
  : AureusClient.Response :=
  AureusClient.MakeResponse 200 (JObj {[ "allowed" := JBool true ]}).

End Samples.

Module MoreSamples.
Import App.

(** The answer to the sample request, and the world it leaves. *)
Definition email_response : response :=
  match (evaluate_policy Samples.email_context Samples.world0).1 with
  | inr r => r
  | inl _ => Spec.invalid_request
  end.

Definition email_world : world :=
  (evaluate_policy Samples.email_context Samples.world0).2.

Definition no_plan : plan :=
  Plan (inr []) EmptyString (RiskAssessment 0 EmptyString []) false None
       (ExecutionPlan [] 0 false) (PolicyMetadata EmptyString 0 []).

Definition email_plan : plan :=
  match payload email_response with
  | PlanBody p => p
  | ErrorBody _ _ => no_plan
  end.

Definition email_intent : gmap string json :=
  {[ "action" := JStr "send_email"; "user_id" := JStr "user123" ]}.

(** A request without a JSON body: [request.json] raises
    [415 Unsupported Media Type]. *)
Definition no_body : exn + json := inl (HTTPException 415).

(** A request for an action that is not in the table. *)
Definition unknown_context : json :=
  JObj {[ "intent" := JObj {[ "action" := JStr "launch_rocket";
                              "user_id" := JStr "user123" ]} ]}.

(** A request of a trusted user for an action at the top of the table. *)
Definition funds_context : json :=
  JObj {[ "intent" := JObj {[ "action" := JStr "transfer_funds";
                              "user_id" := JStr "root-admin" ]} ]}.

(** The same action requested by a trusted and by another user. *)
Definition delete_by_user : json :=
  JObj {[ "intent" := JObj {[ "action" := JStr "delete_record";
                              "user_id" := JStr "user123" ]} ]}.

End MoreSamples.

(** * [app.py]: the memory and analytics handlers *)

Module Memory.

(** The clock the handlers read through [time.time()] and
    [datetime.utcnow()]. *)
Record clock : Type := Clock {
  unix_time : Z;
  utc_iso : string
}.

(** What [logger.info] and [logger.error] receive in these handlers. *)
Inductive log_line : Type :=
| LogStoring (key : json)
| LogRetrieving (query : json)
| LogStoreError (e : exn)
| LogRetrieveError (e : exn).

Record memory : Type := MakeMemory {
  memory_id : string;
  content : string;
  relevance_score : float;
  timestamp : string
}.

(** The JSON bodies the handlers answer with: [{'status': 'stored', ...}],
    [{'status': 'success', 'memories': ...}] and [{'error': str(e)}]. *)
Inductive body : Type :=
| Stored (memory_id : App.fstring) (timestamp : string)
| Retrieved (memories : list memory)
| Failed (e : exn).

Record response : Type := Response {
  payload : body;
  status : Z
}.

(** [obj.get(key, default)]: only a [dict] has [get]. *)
Definition get (obj : json) (key : string) (default_value : json) : exn + json :=
  match obj with
  | JObj m => inr (default default_value (m !! key))
  | _ => inl (AttributeError (py_type_name obj) "get")
  end.

(** [store_memory], from the point where [request.json] has produced the
    parsed body [data] ([JNull] is what the literal body [null] parses
    to); the result is the lines logged and the response. *)
Definition store_memory (now : clock) (data : json) : list log_line * response :=
  match get data "key" (JStr "unknown") with
  | inr key =>
      ([LogStoring key],
       Response (Stored [App.FLit "mem_"; App.FInt (unix_time now)]
                        (utc_iso now +:+ "Z")) 200)
  | inl e => ([LogStoreError e], Response (Failed e) 500)
  end.

(** The whole of [store_memory], [data = request.json] included: the
    assignment is inside the [try], so on a request without a JSON body
    the handler catches what [request.json] raises and answers with that
    error. *)
Definition store_memory_request (now : clock) (request_json : exn + json)
  : list log_line * response :=
  match request_json with
  | inr data => store_memory now data
  | inl e => ([LogStoreError e], Response (Failed e) 500)
  end.



End Memory.

Module Analytics.
Import App.

Record latency : Type := Latency {
  p50 : Z;
  p95 : Z;
  p99 : Z
}.

Record report : Type := Report {
  total_evaluations : Z;
  approval_rate : float;
  average_risk_score : float;
  high_risk_actions_blocked : Z;
  evaluation_latency_ms : latency
}.

Section Uniform.
(** [round(random.uniform(lo, hi), ndigits)] as a function of the raw draw
    it consumes: floating-point arithmetic of the standard library, taken
    as given. *)
Variable rounded_uniform : float → float → Z → Z → float.

Definition round_uniform (lo hi : float) (ndigits : Z) : M float :=
  λ w, (inr (rounded_uniform lo hi ndigits (draws w (cursor w))), advance w).

(** The doubles written [0.80] and [0.90]. *)
Definition f_0_80 : float := Finite (3602879701896397 # 4503599627370496).
Definition f_0_90 : float := Finite (8106479329266893 # 9007199254740992).

(** [analytics]: the fields of the answer, drawn in the order the dict
    literal evaluates them. *)
Definition analytics : M report :=
  total ← randint 1000 5000;
  rate ← round_uniform f_0_80 f_0_90 2;
  average ← round_uniform (Finite 30) (Finite 50) 1;
  blocked ← randint 50 150;
  l50 ← randint 80 120;
  l95 ← randint 150 200;
  l99 ← randint 250 350;
  mret (Report total rate average blocked (Latency l50 l95 l99)).
End Uniform.

End Analytics.

(** * [models/crv.py]: the recovery strategies *)

(** [Literal[expected]] on a field. *)
Definition literal (field expected actual : string) : list error_detail :=
  if String.eqb actual expected then [] else [ErrorDetail "literal_error" [field]].

Module RetryAltToolStrategy.
Record t : Type := Make {
  type : string;
  tool_name : string;
  max_retries : Z
}.
Definition errors (s : t) : list error_detail :=
  (literal "type" "retry_alt_tool" (type s) ++ ge_int "max_retries" 1 (max_retries s))%list.
Definition model_validate (s : t) : ValidationError + t := construct (errors s) s.
(** The keyword call; [type] takes its default when left out. *)
Definition new (type : option string) (tool_name : string) (max_retries : Z)
  : ValidationError + t :=
  model_validate (Make (default "retry_alt_tool" type) tool_name max_retries).
End RetryAltToolStrategy.

Module AskUserStrategy.
Record t : Type := Make {
  type : string;
  prompt : string
}.
Definition errors (s : t) : list error_detail := literal "type" "ask_user" (type s).
Definition model_validate (s : t) : ValidationError + t := construct (errors s) s.
Definition new (type : option string) (prompt : string) : ValidationError + t :=
  model_validate (Make (default "ask_user" type) prompt).
End AskUserStrategy.

Module EscalateStrategy.
Record t : Type := Make {
  type : string;
  reason : string
}.
Definition errors (s : t) : list error_detail := literal "type" "escalate" (type s).
Definition model_validate (s : t) : ValidationError + t := construct (errors s) s.
Definition new (type : option string) (reason : string) : ValidationError + t :=
  model_validate (Make (default "escalate" type) reason).
End EscalateStrategy.

Module IgnoreStrategy.
Record t : Type := Make {
  type : string;
  justification : string
}.
Definition errors (s : t) : list error_detail := literal "type" "ignore" (type s).
Definition model_validate (s : t) : ValidationError + t := construct (errors s) s.
Definition new (type : option string) (justification : string) : ValidationError + t :=
  model_validate (Make (default "ignore" type) justification).
End IgnoreStrategy.

(** [RecoveryStrategy = Union[...]] *)
Inductive RecoveryStrategy : Type :=
| RetryAltTool (s : RetryAltToolStrategy.t)
| AskUser (s : AskUserStrategy.t)
| Escalate (s : EscalateStrategy.t)
| Ignore (s : IgnoreStrategy.t).

Definition strategy_type (s : RecoveryStrategy) : string :=
  match s with
  | RetryAltTool s => RetryAltToolStrategy.type s
  | AskUser s => AskUserStrategy.type s
  | Escalate s => EscalateStrategy.type s
  | Ignore s => IgnoreStrategy.type s
  end.

Definition strategy_errors (s : RecoveryStrategy) : list error_detail :=
  match s with
  | RetryAltTool s => RetryAltToolStrategy.errors s
  | AskUser s => AskUserStrategy.errors s
  | Escalate s => EscalateStrategy.errors s
  | Ignore s => IgnoreStrategy.errors s
  end.

Definition strategy_validate (s : RecoveryStrategy) : ValidationError + RecoveryStrategy :=
  construct (strategy_errors s) s.

(** * [client.py]: construction and the other policy calls *)

Module ClientSetup.

(** [c in chars] *)
Fixpoint char_in (c : ascii) (chars : string) : bool :=
  match chars with
  | EmptyString => false
  | String d chars' => Ascii.eqb c d || char_in c chars'
  end.

(** [s.rstrip(chars)]: [s] without its trailing characters that are in
    [chars]. *)
Fixpoint rstrip (chars s : string) : string :=
  match s with
  | EmptyString => EmptyString
  | String c s' =>
      match rstrip chars s' with
      | EmptyString => if char_in c chars then EmptyString else String c EmptyString
      | String d r => String c (String d r)
      end
  end.

(** The attributes [__init__] sets; the [httpx.AsyncClient] it opens is
    the transport of the calls. *)
Record t : Type := Make {
  base_url : string;
  timeout : float;
  headers : gmap string string
}.

Definition default_base_url : string := "http://localhost:3000".
Definition default_timeout : float := Finite 30.

Definition init (base_url : string) (api_key : option string) (timeout : float) : t :=
  let headers : gmap string string := {[ "Content-Type" := "application/json" ]} in
  let headers :=
    match api_key with
    | Some key =>
        if negb (String.eqb key EmptyString)
        then <[ "Authorization" := "Bearer " +:+ key ]> headers
        else headers
    | None => headers
    end in
  Make (rstrip "/" base_url) timeout headers.

(** The request [request_approval] posts. *)
Record ApprovalPayload : Type := MakeApprovalPayload {
  payload_action : Action.t;
  payload_principal : Principal.t;
  payload_reason : string
}.

Section Transport.
Variable post : string → ApprovalPayload → AureusClient.Response.

Definition request_approval (action : Action.t) (principal : Principal.t)
    (reason : string) : exn + json :=
  let payload := MakeApprovalPayload action principal reason in
  let response := post "/api/v1/policy/approval" payload in
  match AureusClient.raise_for_status response with
  | inl e => inl e
  | inr _ =>
      let result := AureusClient.json_body response in
      match result with
      | JObj m => inr (default (JStr EmptyString) (m !! "approval_token"))
      | _ => inl (AttributeError (py_type_name result) "get")
      end
  end.
End Transport.

(** A query parameter of [get_metrics]: a string filter, or the tags as
    [json.dumps] writes them. *)
Inductive param : Type :=
| ParamStr (s : string)
| ParamDumps (tags : gmap string string).

(** The [params] dictionary [get_metrics] builds from its filters. *)
Definition get_metrics_params (metric_name start_time end_time : option string)
    (tags : option (gmap string string)) : gmap string param :=
  let given (v : option string) : bool :=
    match v with
    | Some s => negb (String.eqb s EmptyString)
    | None => false
    end in
  let params : gmap string param := ∅ in
  let params :=
    if given metric_name then <[ "name" := ParamStr (default EmptyString metric_name) ]> params
    else params in
  let params :=
    if given start_time
    then <[ "start_time" := ParamStr (default EmptyString start_time) ]> params
    else params in
  let params :=
    if given end_time
    then <[ "end_time" := ParamStr (default EmptyString end_time) ]> params
    else params in
  let params :=
    match tags with
    | Some m => if bool_decide (m = ∅) then params
                else <[ "tags" := ParamDumps m ]> params
    | None => params
    end in
  params.

End ClientSetup.

(** * Properties of [app.py] *)

Section StringFacts.

Lemma append_cons (c : ascii) (a b : string) :
  String c a +:+ b = String c (a +:+ b).
Proof. reflexivity. Qed.

Lemma append_nil (b : string) : EmptyString +:+ b = b.
Proof. reflexivity. Qed.

Lemma starts_with_true (p s : string) :
  Str.starts_with p s = true ↔ ∃ post, s = p +:+ post.
Proof.
  revert s; induction p as [|a p IH]; intros s; simpl.
  - split; [intros _; by exists s | done].
  - destruct s as [|b s].
    + split; [done | intros [post H]; rewrite append_cons in H; discriminate H].
    + destruct (Ascii.eqb_spec a b) as [->|Hne].
      * rewrite IH. split; intros [post H]; exists post;
          rewrite append_cons in *; congruence.
      * split; [done | intros [post H]; rewrite append_cons in H; congruence].
Qed.

Lemma contains_true (sub s : string) :
  Str.contains sub s = true ↔ ∃ pre post, s = pre +:+ sub +:+ post.
Proof.
  induction s as [|c s IH]; simpl.
  - destruct (Str.starts_with sub EmptyString) eqn:E.
    + apply starts_with_true in E as [post E].
      split; [intros _; by exists EmptyString, post | done].
    + split; [done |]. intros (pre & post & H).
      destruct pre; [|rewrite append_cons in H; discriminate H].
      rewrite append_nil in H.
      assert (Str.starts_with sub EmptyString = true) by (apply starts_with_true; eauto).
      congruence.
  - destruct (Str.starts_with sub (String c s)) eqn:E.
    + apply starts_with_true in E as [post E].
      split; [intros _; by exists EmptyString, post | done].
    + rewrite IH. split.
      * intros (pre & post & ->). by exists (String c pre), post.
      * intros (pre & post & H). destruct pre as [|c' pre].
        -- rewrite append_nil in H.
           assert (Str.starts_with sub (String c s) = true)
             by (apply starts_with_true; eauto).
           congruence.
        -- rewrite append_cons in H. injection H as -> ->. eauto.
Qed.

Lemma lower_app (a b : string) :
  Str.lower (a +:+ b) = Str.lower a +:+ Str.lower b.
Proof.
  induction a as [|c a IH]; [done |].
  rewrite append_cons. simpl. by rewrite IH, append_cons.
Qed.

Lemma lower_split (s x y : string) :
  Str.lower s = x +:+ y → ∃ a b, s = a +:+ b ∧ Str.lower a = x ∧ Str.lower b = y.
Proof.
  revert s; induction x as [|c x IH]; intros s H.
  - by exists EmptyString, s.
  - rewrite append_cons in H.
    destruct s as [|d s]; [discriminate H|]. simpl in H.
    injection H as Hc Hs. apply IH in Hs as (a & b & -> & <- & <-).
    exists (String d a), b. simpl. by rewrite Hc.
Qed.

(** The test the code runs, [sub in s.lower()], is the case-insensitive
    occurrence of the specification. *)
Lemma contains_lower (sub s : string) :
  Str.contains sub (Str.lower s) = true ↔ Spec.contains_ignoring_case sub s.
Proof.
  rewrite contains_true. unfold Spec.contains_ignoring_case. split.
  - intros (pre & post & H).
    apply lower_split in H as (a & b & -> & <- & H).
    apply lower_split in H as (m & c & -> & <- & <-).
    by exists a, m, c.
  - intros (pre & mid & post & -> & <-).
    exists (Str.lower pre), (Str.lower post). by rewrite !lower_app.
Qed.

Lemma trusted_user_test (u : string) :
  Str.contains "admin" (Str.lower u) || Str.contains "privileged" (Str.lower u) = true
  ↔ Spec.trusted_user u.
Proof.
  unfold Spec.trusted_user. rewrite orb_true_iff, !contains_lower. done.
Qed.

End StringFacts.

Section RiskScore.
Import App.

(** Unfolding the monadic plumbing of the handlers. *)
Ltac run := unfold mbind, M_bind, bind, mret, M_ret, ret, raise,
                   try_except, randint, logger, time_time, utcnow_isoformat;
            simpl.

Lemma next_randint_range (lo hi : Z) (w : world) :
  lo ≤ hi → lo ≤ next_randint lo hi w ≤ hi.
Proof.
  intros H. unfold next_randint.
  pose proof (Z.mod_pos_bound (draws w (cursor w)) (hi - lo + 1)). lia.
Qed.

(** On a context in the documented shape the score is the clamped sum of
    the base risk, lowered for the users the test selects, and the draw. *)
Lemma calculate_risk_score_reads (context : json) (a u : string) (w : world) :
  Spec.context_reads context a u →
  calculate_risk_score context w =
    (inr (Z.max 0 (Z.min 100
            ((if Str.contains "admin" (Str.lower u)
                 || Str.contains "privileged" (Str.lower u)
              then Z.max 0 (Spec.table_risk a - 15)
              else Spec.table_risk a)
             + next_randint (-5) 10 w))),
     advance w).
Proof.
  intros (c & i & -> & Hi & Ha & Hu).
  unfold calculate_risk_score, py_get. run.
  rewrite Hi. run. rewrite Ha, Hu. run.
  unfold Spec.table_risk. by destruct (ACTION_RISKS !! a).
Qed.

(** Whatever the context, [calculate_risk_score] either raises the same
    exception in every world, before any draw, or returns the clamped sum
    of a base that depends on the context only and the next draw. *)
Lemma calculate_risk_score_cases (context : json) :
  (∃ e, ∀ w, calculate_risk_score context w = (inl e, w))
  ∨ (∃ base, ∀ w, calculate_risk_score context w =
       (inr (Z.max 0 (Z.min 100 (base + next_randint (-5) 10 w))), advance w)).
Proof.
  unfold calculate_risk_score, py_get.
  destruct context as [| | | | | |c]; try (left; eexists; intros w; run; reflexivity).
  run. destruct (default (JObj ∅) (c !! "intent")) as [| | | | | |i];
    try (left; eexists; intros w; run; reflexivity).
  run.
  destruct (default (JStr "unknown") (i !! "action")) as [|b|n|q|a|l|m];
    destruct (default (JStr "unknown") (i !! "user_id")) as [|b'|n'|q'|u|l'|m'];
    run;
    try (left; eexists; intros w; reflexivity);
    right; eexists; intros w; reflexivity.
Qed.

(** C4, as stated, fails: two invocations in a row on one context return
    20 and then 21. *)
Lemma calculate_risk_score_two_invocations_differ :
  (calculate_risk_score Samples.email_context Samples.world0).1 = inr 20
  ∧ (calculate_risk_score Samples.email_context
       (calculate_risk_score Samples.email_context Samples.world0).2).1 = inr 21.
Proof. split; vm_compute; reflexivity. Qed.

(** C4, amended: the score is determined by the context and the random
    adjustment drawn.  Two invocations on one context either raise the
    same exception or both return; the two scores are equal when the two
    draws are, and are never more than 15 apart. *)
Theorem calculate_risk_score_deterministic_up_to_draw
    (context : json) (w1 w2 : world) :
  match (calculate_risk_score context w1).1, (calculate_risk_score context w2).1 with
  | inr s1, inr s2 =>
      (next_randint (-5) 10 w1 = next_randint (-5) 10 w2 → s1 = s2)
      ∧ Z.abs (s1 - s2) ≤ 15
  | inl e1, inl e2 => e1 = e2
  | _, _ => False
  end.
Proof.
  destruct (calculate_risk_score_cases context) as [[e H]|[base H]];
    rewrite !H; simpl; [done |].
  pose proof (next_randint_range (-5) 10 w1).
  pose proof (next_randint_range (-5) 10 w2).
  split; [intros ->; done | lia].
Qed.

(** C5: on every context in the documented shape, whatever the action,
    the user and the draw, [calculate_risk_score] returns a score between
    0 and 100. *)
Theorem calculate_risk_score_in_range
    (context : json) (action user_id : string) (w : world) :
  Spec.context_reads context action user_id →
  ∃ score, calculate_risk_score context w = (inr score, advance w)
           ∧ 0 ≤ score ≤ 100.
Proof.
  intros H. rewrite (calculate_risk_score_reads _ _ _ _ H).
  eexists; split; [reflexivity | lia].
Qed.

Lemma calculate_risk_score_in_range_witness :
  Spec.context_reads Samples.email_context "send_email" "user123"
  ∧ ∃ score, calculate_risk_score Samples.email_context Samples.world0
             = (inr score, advance Samples.world0)
             ∧ 0 ≤ score ≤ 100.
Proof.
  assert (H : Spec.context_reads Samples.email_context "send_email" "user123").
  { eexists _, _. split; [reflexivity |]. repeat split; vm_compute; reflexivity. }
  split; [exact H |].
  exact (calculate_risk_score_in_range _ _ _ Samples.world0 H).
Defined.

(** C10: for a user whose id contains [admin] or [privileged], case
    ignored, the base risk of the action is lowered by 15, not below 0,
    before the random adjustment is added; for every other user the base
    risk of the table (50 for an action not listed) is used as it is. *)
Theorem calculate_risk_score_trusted_user
    (context : json) (action user_id : string) (w : world) :
  Spec.context_reads context action user_id →
  (Spec.trusted_user user_id →
     (calculate_risk_score context w).1
     = inr (Z.max 0 (Z.min 100 (Z.max 0 (Spec.table_risk action - 15)
                                + next_randint (-5) 10 w))))
  ∧ (¬ Spec.trusted_user user_id →
     (calculate_risk_score context w).1
     = inr (Z.max 0 (Z.min 100 (Spec.table_risk action
                                + next_randint (-5) 10 w)))).
Proof.
  intros H. rewrite (calculate_risk_score_reads _ _ _ _ H). simpl.
  pose proof (trusted_user_test user_id) as Htest.
  destruct (Str.contains "admin" (Str.lower user_id)
            || Str.contains "privileged" (Str.lower user_id)).
  - split; [done |]. intros Hn. destruct Hn. by apply Htest.
  - split; [|done]. intros Ht. apply Htest in Ht. discriminate Ht.
Qed.

Lemma calculate_risk_score_trusted_user_witness :
  Spec.context_reads Samples.admin_context "delete_record" "Admin-7"
  ∧ (Spec.trusted_user "Admin-7" →
       (calculate_risk_score Samples.admin_context Samples.world0).1
       = inr (Z.max 0 (Z.min 100 (Z.max 0 (Spec.table_risk "delete_record" - 15)
                                  + next_randint (-5) 10 Samples.world0))))
  ∧ (¬ Spec.trusted_user "Admin-7" →
       (calculate_risk_score Samples.admin_context Samples.world0).1
       = inr (Z.max 0 (Z.min 100 (Spec.table_risk "delete_record"
                                  + next_randint (-5) 10 Samples.world0)))).
Proof.
  assert (H : Spec.context_reads Samples.admin_context "delete_record" "Admin-7").
  { eexists _, _. split; [reflexivity |]. repeat split; vm_compute; reflexivity. }
  split; [exact H |].
  exact (calculate_risk_score_trusted_user _ _ _ Samples.world0 H).
Defined.

End RiskScore.

Section PolicyEndpoint.
Import App.

Ltac run := unfold mbind, M_bind, bind, mret, M_ret, ret, raise,
                   try_except, randint, logger, time_time, utcnow_isoformat;
            simpl.

(** The guard answers 400 and leaves the world as it was. *)
Lemma evaluate_policy_falsy (context : json) (w : world) :
  py_truthy context = false →
  evaluate_policy context w = (inr Spec.invalid_request, w).
Proof. intros H. unfold evaluate_policy. run. rewrite H. reflexivity. Qed.

Lemma evaluate_policy_no_intent (m : gmap string json) (w : world) :
  m !! "intent" = None →
  evaluate_policy (JObj m) w = (inr Spec.invalid_request, w).
Proof.
  intros H. unfold evaluate_policy. run.
  destruct (negb (bool_decide (m = ∅))); [|reflexivity].
  run. rewrite H. rewrite bool_decide_eq_false_2; [reflexivity |].
  by intros [? ?].
Qed.

(** With an object under [intent], plan generation cannot raise. *)
Lemma generate_plan_returns (m i : gmap string json) (s : Z) (lvl : string)
    (w : world) :
  m !! "intent" = Some (JObj i) →
  ∃ p, generate_plan (JObj m) s lvl w = (inr p, advance w)
       ∧ score (plan_risk_assessment p) = s
       ∧ level (plan_risk_assessment p) = lvl.
Proof.
  intros H. unfold generate_plan, py_get, py_len. run. rewrite H. run.
  eexists. split; [reflexivity |]. done.
Qed.

(** Past the guard: the line is logged, the score is calculated, and the
    answer is the plan built on it, or 500 when the calculation raises. *)
Lemma evaluate_policy_intent_object (m i : gmap string json) (w : world) :
  m !! "intent" = Some (JObj i) →
  let w1 := logged (LogEvaluating (default JNull (i !! "action"))) w in
  match calculate_risk_score (JObj m) w1 with
  | (inr s, w2) =>
      ∃ p, evaluate_policy (JObj m) w
           = (inr (Response (PlanBody p) 200),
              logged (LogComplete (assess_risk_level s) s (approval_required p))
                     (advance w2))
           ∧ score (plan_risk_assessment p) = s
           ∧ level (plan_risk_assessment p) = assess_risk_level s
  | (inl e, w2) =>
      evaluate_policy (JObj m) w
      = (inr (Spec.evaluation_failed e), logged (LogError e) w2)
  end.
Proof.
  intros H w1.
  assert (Hne : bool_decide (m = ∅) = false).
  { apply bool_decide_eq_false_2. intros ->. by rewrite lookup_empty in H. }
  assert (Hin : bool_decide (is_Some (m !! "intent")) = true).
  { apply bool_decide_eq_true_2. by rewrite H. }
  unfold evaluate_policy, py_in, py_get. run.
  rewrite Hne. run. rewrite Hin. run. rewrite H. run.
  fold w1.
  destruct (calculate_risk_score (JObj m) w1) as [[e|s] w2]; [reflexivity |].
  destruct (generate_plan_returns m i s (assess_risk_level s) w2 H)
    as (p & Hp & Hs & Hl).
  rewrite Hp. exists p. done.
Qed.

Lemma calculate_risk_score_log (context : json) (w : world) :
  log (calculate_risk_score context w).2 = log w.
Proof.
  destruct (calculate_risk_score_cases context) as [[e H]|[base H]];
    by rewrite H.
Qed.

(** C8, as stated, fails: a body whose [intent] is the number 5 holds an
    [intent] key, yet the handler answers 500 without reaching the risk
    evaluation. *)
Lemma evaluate_policy_numeric_intent_fails :
  (∃ m, Samples.numeric_intent = JObj m ∧ is_Some (m !! "intent"))
  ∧ evaluate_policy Samples.numeric_intent Samples.world0
    = (inr (Spec.evaluation_failed (AttributeError "int" "get")),
       logged (LogError (AttributeError "int" "get")) Samples.world0)
  ∧ ¬ Spec.proceeds_to_risk_evaluation Samples.numeric_intent Samples.world0.
Proof.
  assert (E : evaluate_policy Samples.numeric_intent Samples.world0
    = (inr (Spec.evaluation_failed (AttributeError "int" "get")),
       logged (LogError (AttributeError "int" "get")) Samples.world0))
    by (vm_compute; reflexivity).
  split; [|split; [exact E |]].
  - eexists. split; [reflexivity |]. vm_compute. eauto.
  - intros (action & rest & H). rewrite E in H. simpl in H. discriminate H.
Qed.

(** The handler on a parsed body always answers. *)
Lemma evaluate_policy_returns (context : json) (w : world) :
  ∃ r w', evaluate_policy context w = (inr r, w').
Proof.
  unfold evaluate_policy, try_except.
  match goal with |- context [match ?m w with _ => _ end] => destruct (m w) as [[e|r] w1] end.
  - eexists _, _. reflexivity.
  - eauto.
Qed.

(** On a request whose body was parsed, the whole handler is the handler
    on the parsed body. *)
Lemma evaluate_policy_request_parsed (context : json) (w : world) :
  evaluate_policy_request (inr context) w = evaluate_policy context w.
Proof.
  unfold evaluate_policy_request, try_except. run.
  by destruct (evaluate_policy_returns context w) as (r & w' & ->).
Qed.

(** C8, amended: a body that parses to [None] (the literal [null]), that
    is empty (falsy) or that is an object without an [intent] key is
    answered with 400 and the ['Invalid request'] error, with no risk
    score calculated, no plan generated and nothing logged; when
    [request.json] itself raises, as it does on an absent body, the
    handler catches the exception and answers 500 with it, again with no
    risk score calculated and no plan generated; a body that is an object
    whose [intent] is an object proceeds to the risk evaluation, and is
    answered with the plan built on the score [calculate_risk_score]
    returns, or with 500 when it raises. *)
Theorem evaluate_policy_guard (request_json : exn + json) (w : world) :
  (∀ e, request_json = inl e →
     evaluate_policy_request request_json w
     = (inr (Spec.evaluation_failed e), logged (LogError e) w))
  ∧ (∀ context, request_json = inr context →
       (py_truthy context = false ∨ ∃ m, context = JObj m ∧ m !! "intent" = None) →
       evaluate_policy_request request_json w = (inr Spec.invalid_request, w))
  ∧ (∀ m i, request_json = inr (JObj m) → m !! "intent" = Some (JObj i) →
       Spec.request_proceeds_to_risk_evaluation request_json w
       ∧ match calculate_risk_score (JObj m)
                 (logged (LogEvaluating (default JNull (i !! "action"))) w) with
         | (inr s, _) =>
             ∃ p w', evaluate_policy_request request_json w
                     = (inr (Response (PlanBody p) 200), w')
                     ∧ score (plan_risk_assessment p) = s
         | (inl e, _) =>
             ∃ w', evaluate_policy_request request_json w
                   = (inr (Spec.evaluation_failed e), w')
         end).
Proof.
  split_and!.
  - intros e ->. reflexivity.
  - intros context -> H. rewrite evaluate_policy_request_parsed.
    destruct H as [H|(m & -> & H)].
    + by apply evaluate_policy_falsy.
    + by apply evaluate_policy_no_intent.
  - intros m i -> H.
    unfold Spec.request_proceeds_to_risk_evaluation.
    rewrite evaluate_policy_request_parsed.
    pose proof (evaluate_policy_intent_object m i w H) as P. simpl in P.
    pose proof (calculate_risk_score_log (JObj m)
                  (logged (LogEvaluating (default JNull (i !! "action"))) w)) as L.
    destruct (calculate_risk_score (JObj m)
                (logged (LogEvaluating (default JNull (i !! "action"))) w))
      as [[e|s] w2]; simpl in L.
    + split; [|eauto].
      rewrite P. simpl. rewrite L. simpl.
      eexists _, _. by rewrite <- app_assoc.
    + destruct P as (p & P & Hs & _). split; [|eauto].
      rewrite P. simpl. rewrite L. simpl.
      eexists _, _. by rewrite <- app_assoc.
Qed.

Lemma evaluate_policy_guard_witness :
  evaluate_policy_request MoreSamples.no_body Samples.world0
  = (inr (Spec.evaluation_failed (HTTPException 415)),
     logged (LogError (HTTPException 415)) Samples.world0)
  ∧ evaluate_policy_request (inr (JObj ∅)) Samples.world0
    = (inr Spec.invalid_request, Samples.world0)
  ∧ Spec.request_proceeds_to_risk_evaluation (inr Samples.email_context)
      Samples.world0.
Proof.
  split_and!.
  - exact (proj1 (evaluate_policy_guard MoreSamples.no_body Samples.world0)
                 (HTTPException 415) eq_refl).
  - exact (proj1 (proj2 (evaluate_policy_guard (inr (JObj ∅)) Samples.world0))
                 (JObj ∅) eq_refl (or_introl eq_refl)).
  - exact (proj1 (proj2 (proj2 (evaluate_policy_guard (inr Samples.email_context)
                                  Samples.world0))
                    {[ "intent" := JObj MoreSamples.email_intent ]}
                    MoreSamples.email_intent eq_refl eq_refl)).
Defined.

End PolicyEndpoint.

(** * Properties of the client *)

Section CheckPermission.
Import AureusClient.

(** C9, as stated, fails: a 403 response whose body has no [allowed]
    field makes [check_permission] raise instead of returning [False]. *)
Lemma check_permission_error_status_raises :
  (∃ m, json_body (Samples.forbidden_server "/api/v1/policy/check"
                     (MakeCheckPayload Samples.principal Samples.read_data)) = JObj m
        ∧ m !! "allowed" = None)
  ∧ check_permission Samples.forbidden_server Samples.principal Samples.read_data
    = inl (HTTPStatusError 403)
  ∧ check_permission Samples.forbidden_server Samples.principal Samples.read_data
    ≠ inr (JBool false).
Proof.
  split; [by exists ∅ |]. split; [reflexivity | discriminate].
Qed.

(** C9, amended: on a response with a success status whose body is an
    object, [check_permission] returns [False] when the body has no
    [allowed] field and the value of that field otherwise; on any other
    status it raises [HTTPStatusError]. *)
Theorem check_permission_default_deny
    (post : string → CheckPayload → Response)
    (principal : Principal.t) (action : Action.t) :
  (200 ≤ status_code (post "/api/v1/policy/check" (MakeCheckPayload principal action))
       ≤ 299 →
   ∀ m, json_body (post "/api/v1/policy/check" (MakeCheckPayload principal action))
        = JObj m →
     (m !! "allowed" = None →
        check_permission post principal action = inr (JBool false))
     ∧ (∀ v, m !! "allowed" = Some v →
          check_permission post principal action = inr v))
  ∧ (¬ 200 ≤ status_code (post "/api/v1/policy/check"
                            (MakeCheckPayload principal action)) ≤ 299 →
     check_permission post principal action
     = inl (HTTPStatusError
              (status_code (post "/api/v1/policy/check"
                              (MakeCheckPayload principal action))))).
Proof.
  unfold check_permission, raise_for_status.
  set (response := post _ _).
  split.
  - intros [Hlo Hhi] m Hm.
    rewrite (proj2 (Z.leb_le _ _) Hlo), (proj2 (Z.leb_le _ _) Hhi). simpl.
    rewrite Hm. split; [intros -> | intros v ->]; reflexivity.
  - intros Hn.
    destruct (Z.leb_spec 200 (status_code response)),
             (Z.leb_spec (status_code response) 299); simpl; try reflexivity.
    lia.
Qed.

Lemma check_permission_default_deny_witness :
  check_permission Samples.allowing_server Samples.principal Samples.read_data
  = inr (JBool true).
Proof.
  refine (proj2 (proj1 (check_permission_default_deny
                          Samples.allowing_server Samples.principal Samples.read_data)
                   _ {[ "allowed" := JBool true ]} eq_refl)
                (JBool true) eq_refl).
  simpl. lia.
Defined.

End CheckPermission.

(** * Properties of the models *)

Section Validation.

Lemma construct_inr {A} (errs : list error_detail) (a b : A) :
  construct errs a = inr b ↔ errs = [] ∧ a = b.
Proof.
  destruct errs; simpl; split; try done.
  - intros [= ->]. done.
  - intros [_ ->]. done.
  - intros [? _]. done.
Qed.

Lemma construct_inl {A} (errs : list error_detail) (a : A) :
  errs ≠ [] → construct errs a = inl errs.
Proof. by destruct errs. Qed.

Lemma nested_nil (field : string) (errs : list error_detail) :
  nested field errs = [] ↔ errs = [].
Proof. unfold nested. by destruct errs. Qed.

Lemma bind_nil {A} (f : A → list error_detail) (l : list A) :
  l ≫= f = [] ↔ Forall (λ a, f a = []) l.
Proof.
  induction l as [|a l IH]; simpl.
  - split; [constructor | done].
  - change ((a :: l) ≫= f) with (f a ++ l ≫= f).
    rewrite app_nil, IH, Forall_cons. done.
Qed.

Lemma ge_int_nil (field : string) (bound v : Z) :
  ge_int field bound v = [] ↔ bound ≤ v.
Proof.
  unfold ge_int. destruct (Z.leb_spec bound v); split; try done. lia.
Qed.

(** The comparison the validators run is the order on float values. *)
Lemma fle_float_le (x y : float) : fle x y = true ↔ Spec.float_le x y.
Proof.
  destruct x as [a| | |], y as [b| | |]; simpl; split; intros H;
    try discriminate H; try (by inversion H); try (by constructor).
  - constructor. by apply Qle_bool_iff.
  - inversion H; subst. by apply Qle_bool_iff.
Qed.

Lemma ge_float_nil (field : string) (bound : Q) (v : float) :
  ge_float field bound v = [] ↔ Spec.float_le (Finite bound) v.
Proof.
  unfold ge_float. rewrite <- fle_float_le.
  destruct (fle (Finite bound) v); split; done.
Qed.

Lemma le_float_nil (field : string) (bound : Q) (v : float) :
  le_float field bound v = [] ↔ Spec.float_le v (Finite bound).
Proof.
  unfold le_float. rewrite <- fle_float_le.
  destruct (fle v (Finite bound)); split; done.
Qed.

Lemma float_lt_not_le (x y : float) : Spec.float_lt x y → ¬ Spec.float_le y x.
Proof.
  intros Hlt Hle. destruct Hlt; inversion Hle; subst; try done.
  eapply Qlt_not_le; eauto.
Qed.

Lemma unit_interval_bounds (c : float) :
  Spec.in_unit_interval c
  ↔ Spec.float_le (Finite 0) c ∧ Spec.float_le c (Finite 1).
Proof.
  split.
  - intros (q & -> & H0 & H1). split; by constructor.
  - intros [H0 H1]. destruct c as [q| | |]; try (by inversion H0); try (by inversion H1).
    exists q. inversion H0; inversion H1; subst. done.
Qed.

Lemma retry_errors_nil (r : RetryConfig.t) :
  RetryConfig.errors r = [] ↔ Spec.retry_bounds r.
Proof.
  unfold RetryConfig.errors, Spec.retry_bounds.
  rewrite !app_nil, !ge_int_nil.
  destruct (RetryConfig.backoff_multiplier r) as [m|]; simpl.
  - rewrite ge_float_nil. split.
    + intros (? & ? & ?). split_and!; try done. by intros ? [= <-].
    + intros (? & ? & H). split_and!; try done. by apply H.
  - split; intros (? & ? & ?); split_and!; done.
Qed.

Lemma safety_policy_errors_nil (p : SafetyPolicy.t) : SafetyPolicy.errors p = [].
Proof.
  unfold SafetyPolicy.errors. apply nested_nil, bind_nil.
  by apply Forall_forall.
Qed.

Lemma permissions_errors_nil (ps : list Permission.t) :
  ps ≫= Permission.errors = [].
Proof. apply bind_nil. by apply Forall_forall. Qed.

(** A task validates exactly when its timeout and its retry
    configuration, where given, are within their bounds. *)
Lemma task_errors_nil (t : TaskSpec.t) :
  TaskSpec.errors t = []
  ↔ (∀ n, TaskSpec.timeout_ms t = Some n → 1 ≤ n)
    ∧ (∀ r, TaskSpec.retry t = Some r → Spec.retry_bounds r).
Proof.
  unfold TaskSpec.errors. rewrite !app_nil, !nested_nil.
  destruct (TaskSpec.retry t) as [r|], (TaskSpec.timeout_ms t) as [n|],
           (TaskSpec.compensation t), (TaskSpec.compensation_action t),
           (TaskSpec.required_permissions t) as [ps|],
           (TaskSpec.sandbox_config t);
    simpl; rewrite ?retry_errors_nil, ?ge_int_nil;
    try (pose proof (permissions_errors_nil ps) as Hps);
    split; intros H; destruct_and?; split_and?; try done;
    try (by intros ? [= <-]); try (by eauto).
Qed.

End Validation.

Section Workflow.
Import WorkflowSpec.

Lemma workflow_errors_nil (w : WorkflowSpec.t) :
  errors w = [] ↔ Forall (λ t, TaskSpec.errors t = []) (tasks w).
Proof.
  unfold errors. rewrite app_nil, !nested_nil, bind_nil.
  destruct (safety_policy w) as [p|]; simpl;
    rewrite ?safety_policy_errors_nil; tauto.
Qed.

(** C1, as stated, fails: a workflow whose task depends on itself, one
    that depends on a task that is not listed, and one with two tasks
    depending on each other are all constructed successfully, and none
    of them is a DAG over its tasks. *)
Lemma workflow_spec_accepts_non_dag :
  (model_validate Samples.self_loop_workflow = inr Samples.self_loop_workflow
   ∧ ¬ Spec.no_self_loops Samples.self_loop_workflow
   ∧ ¬ Spec.is_dag Samples.self_loop_workflow)
  ∧ (model_validate Samples.dangling_workflow = inr Samples.dangling_workflow
     ∧ ¬ Spec.no_dangling_references Samples.dangling_workflow
     ∧ ¬ Spec.is_dag Samples.dangling_workflow)
  ∧ (model_validate Samples.cyclic_workflow = inr Samples.cyclic_workflow
     ∧ ¬ Spec.acyclic Samples.cyclic_workflow
     ∧ ¬ Spec.is_dag Samples.cyclic_workflow).
Proof.
  assert (L : ¬ Spec.no_self_loops Samples.self_loop_workflow).
  { intros H. apply (H "task1"). exists ["task1"].
    split; [reflexivity | apply list_elem_of_here]. }
  assert (D : ¬ Spec.no_dangling_references Samples.dangling_workflow).
  { intros H. destruct (H "task1" "ghost") as [_ Hin].
    - exists ["ghost"]. split; [reflexivity | apply list_elem_of_here].
    - apply list_elem_of_singleton in Hin. discriminate Hin. }
  assert (A : ¬ Spec.acyclic Samples.cyclic_workflow).
  { intros H. apply (H "task1").
    apply Spec.reaches_step with (d := "task2"); [|apply Spec.reaches_edge].
    - exists ["task2"]. split; [reflexivity | apply list_elem_of_here].
    - exists ["task1"]. split; [reflexivity | apply list_elem_of_here]. }
  unfold Spec.is_dag. split_and!; try reflexivity; try assumption; tauto.
Qed.

(** C1, amended: the construction of a [WorkflowSpec] does not look at
    the dependency mapping.  Whatever mapping is given, the workflow is
    constructed, with that mapping stored as it is, exactly when each of
    its tasks validates; otherwise it is rejected. *)
Theorem workflow_spec_any_dependencies
    (w : WorkflowSpec.t) (deps : gmap string (list string)) :
  let w' := Make (id w) (name w) (goal w) (constraints w) (success_criteria w)
                 (tasks w) deps (safety_policy w) in
  (Forall (λ t, TaskSpec.model_validate t = inr t) (tasks w)
   ↔ model_validate w' = inr w')
  ∧ (∀ v, model_validate w' = inr v → dependencies v = deps)
  ∧ (¬ Forall (λ t, TaskSpec.model_validate t = inr t) (tasks w)
     → ∃ errs, model_validate w' = inl errs).
Proof.
  intros w'.
  assert (E : Forall (λ t, TaskSpec.model_validate t = inr t) (tasks w)
              ↔ errors w' = []).
  { rewrite workflow_errors_nil. simpl. apply Forall_iff. intros t.
    unfold TaskSpec.model_validate. rewrite construct_inr. tauto. }
  unfold model_validate. split_and!.
  - rewrite E, construct_inr. tauto.
  - intros v Hv. apply construct_inr in Hv as [_ <-]. reflexivity.
  - intros Hn. exists (errors w'). apply construct_inl. by rewrite <- E.
Qed.

Lemma workflow_spec_any_dependencies_witness :
  model_validate Samples.self_loop_workflow = inr Samples.self_loop_workflow.
Proof.
  refine (proj1 (proj1 (workflow_spec_any_dependencies
                          (Samples.workflow [Samples.task "task1"] ∅)
                          {[ "task1" := ["task1"] ]})) _).
  repeat constructor.
Defined.

End Workflow.

Section Execution.
Import TaskExecutionResult.

(** C2, as stated, fails: a result whose status is ["running"] is
    constructed successfully. *)
Lemma task_execution_result_accepts_other_status :
  model_validate Samples.running_result = inr Samples.running_result
  ∧ status Samples.running_result ∉ ["success"; "failed"; "skipped"].
Proof.
  split; [reflexivity |].
  change (status Samples.running_result) with "running".
  rewrite !elem_of_cons, elem_of_nil.
  intros [H|[H|[H|[]]]]; discriminate H.
Qed.

(** C2, amended: [status] is a free string.  A [TaskExecutionResult] is
    constructed successfully with whatever status string it is given,
    stored as it is; [success], [failed] and [skipped] are the values its
    description names. *)
Theorem task_execution_result_any_status
    (task_id status : string) (result : option json) (error : option string)
    (duration_ms : option float) :
  ∃ r, model_validate (Make task_id status result error duration_ms) = inr r
       ∧ TaskExecutionResult.status r = status.
Proof. eexists. split; reflexivity. Qed.

End Execution.

Section Bounds.

(** C6: a [RetryConfig] with [max_attempts] or [backoff_ms] below 1 or a
    negative [backoff_multiplier], and a [TaskSpec] with [timeout_ms]
    below 1, are rejected with a validation error; every constructed
    [RetryConfig] has [max_attempts >= 1], [backoff_ms >= 1] and, when
    given, [backoff_multiplier >= 0], and every constructed [TaskSpec]
    has, when given, [timeout_ms >= 1] and a retry configuration within
    those bounds. *)
Theorem retry_and_timeout_bounds (r : RetryConfig.t) (t : TaskSpec.t) :
  ((RetryConfig.max_attempts r < 1 ∨ RetryConfig.backoff_ms r < 1
    ∨ ∃ m, RetryConfig.backoff_multiplier r = Some m
           ∧ Spec.float_lt m (Finite 0)) →
   ∃ errs, RetryConfig.model_validate r = inl errs)
  ∧ ((∃ n, TaskSpec.timeout_ms t = Some n ∧ n < 1) →
     ∃ errs, TaskSpec.model_validate t = inl errs)
  ∧ (∀ r', RetryConfig.model_validate r = inr r' → Spec.retry_bounds r')
  ∧ (∀ t', TaskSpec.model_validate t = inr t' →
       (∀ n, TaskSpec.timeout_ms t' = Some n → 1 ≤ n)
       ∧ (∀ r', TaskSpec.retry t' = Some r' → Spec.retry_bounds r')).
Proof.
  split_and!.
  - intros H. exists (RetryConfig.errors r). apply construct_inl.
    rewrite retry_errors_nil. intros (Ha & Hb & Hm).
    destruct H as [H|[H|(m & Em & H)]]; [lia | lia |].
    by apply (float_lt_not_le _ _ H), Hm.
  - intros (n & En & Hn). exists (TaskSpec.errors t). apply construct_inl.
    rewrite task_errors_nil. intros [Ht _]. specialize (Ht n En). lia.
  - intros r' H. apply construct_inr in H as [H <-]. by apply retry_errors_nil.
  - intros t' H. apply construct_inr in H as [H <-]. by apply task_errors_nil.
Qed.

Lemma retry_and_timeout_bounds_witness :
  (∃ errs, RetryConfig.model_validate Samples.retry_zero_attempts = inl errs)
  ∧ (∃ errs, TaskSpec.model_validate Samples.task_negative_timeout = inl errs)
  ∧ Spec.retry_bounds Samples.retry_three.
Proof.
  split_and!.
  - apply (proj1 (retry_and_timeout_bounds Samples.retry_zero_attempts
                    Samples.task_negative_timeout)).
    left. simpl. lia.
  - apply (proj1 (proj2 (retry_and_timeout_bounds Samples.retry_zero_attempts
                           Samples.task_negative_timeout))).
    exists (-1). split; [reflexivity | lia].
  - apply (proj1 (proj2 (proj2 (retry_and_timeout_bounds Samples.retry_three
                                  Samples.task_negative_timeout)))).
    reflexivity.
Defined.

(** C7: the [confidence] of every constructed [ValidationResult] and the
    [required_confidence] of every constructed [GateConfig], when given,
    lie between 0 and 1; a value outside the unit interval is rejected. *)
Theorem confidence_in_unit_interval (r : ValidationResult.t) (g : GateConfig.t) :
  (∀ r', ValidationResult.model_validate r = inr r' →
     ∀ c, ValidationResult.confidence r' = Some c → Spec.in_unit_interval c)
  ∧ (∀ g', GateConfig.model_validate g = inr g' →
       ∀ c, GateConfig.required_confidence g' = Some c → Spec.in_unit_interval c)
  ∧ (∀ c, ValidationResult.confidence r = Some c → ¬ Spec.in_unit_interval c →
       ∃ errs, ValidationResult.model_validate r = inl errs)
  ∧ (∀ c, GateConfig.required_confidence g = Some c → ¬ Spec.in_unit_interval c →
       ∃ errs, GateConfig.model_validate g = inl errs).
Proof.
  assert (V : ∀ c, ValidationResult.confidence r = Some c →
              (ValidationResult.errors r = [] ↔ Spec.in_unit_interval c)).
  { intros c E. unfold ValidationResult.errors. rewrite E. simpl.
    by rewrite app_nil, ge_float_nil, le_float_nil, unit_interval_bounds. }
  assert (G : ∀ c, GateConfig.required_confidence g = Some c →
              (GateConfig.errors g = [] ↔ Spec.in_unit_interval c)).
  { intros c E. unfold GateConfig.errors. rewrite E. simpl.
    by rewrite app_nil, ge_float_nil, le_float_nil, unit_interval_bounds. }
  split_and!.
  - intros r' H c E. apply construct_inr in H as [H <-]. by apply (V c E).
  - intros g' H c E. apply construct_inr in H as [H <-]. by apply (G c E).
  - intros c E Hn. exists (ValidationResult.errors r). apply construct_inl.
    by rewrite (V c E).
  - intros c E Hn. exists (GateConfig.errors g). apply construct_inl.
    by rewrite (G c E).
Qed.

Lemma confidence_in_unit_interval_witness :
  Spec.in_unit_interval (Finite (95 # 100))
  ∧ Spec.in_unit_interval (Finite (8 # 10))
  ∧ ∃ errs, ValidationResult.model_validate Samples.overconfident_result = inl errs.
Proof.
  split_and!.
  - exact (proj1 (confidence_in_unit_interval Samples.confident_result Samples.gate)
             _ eq_refl _ eq_refl).
  - exact (proj1 (proj2 (confidence_in_unit_interval Samples.confident_result
                           Samples.gate))
             _ eq_refl _ eq_refl).
  - apply (proj1 (proj2 (proj2 (confidence_in_unit_interval
                                  Samples.overconfident_result Samples.gate)))
             _ eq_refl).
    intros (q & [= <-] & _ & H). by apply H.
Defined.

End Bounds.

Section Approval.
Import ApprovalToken.

Lemma run_attempt_pending (i : nat) (s : race) :
  attempts s !! i = Some Pending →
  run_attempt i s
  = Race (consume (shared s)).2
         (<[i := Finished (consume (shared s)).1]> (attempts s)).
Proof. intros H. unfold run_attempt. by rewrite H. Qed.

Lemma step_length (s s' : race) :
  step s s' → length (attempts s') = length (attempts s).
Proof.
  intros (i & Hi & ->). rewrite run_attempt_pending by done.
  simpl. apply length_insert.
Qed.

Lemma steps_length (s s' : race) :
  rtc step s s' → length (attempts s') = length (attempts s).
Proof.
  induction 1 as [|s1 s2 s3 H12 _ IH]; [done |].
  rewrite IH. by apply step_length.
Qed.

(** A used token stays used. *)
Lemma step_used (s s' : race) :
  step s s' → used (shared s) = true → used (shared s') = true.
Proof.
  intros (i & Hi & ->) Hu. rewrite run_attempt_pending by done.
  simpl. unfold consume. by rewrite Hu.
Qed.

Lemma steps_used (s s' : race) :
  rtc step s s' → used (shared s) = true → used (shared s') = true.
Proof. induction 1; eauto using step_used. Qed.

Lemma start_invariant (a : t) (callers : nat) :
  used a = false → Spec.race_invariant (start a callers).
Proof.
  intros Hu. left. split; [done |].
  intros j x H. by apply lookup_replicate_1 in H as [-> _].
Qed.

Lemma step_invariant (s s' : race) :
  step s s' → Spec.race_invariant s → Spec.race_invariant s'.
Proof.
  intros (i & Hi & ->) Inv. rewrite run_attempt_pending by done.
  pose proof (lookup_lt_Some _ _ _ Hi) as Hlt.
  right. unfold consume.
  destruct Inv as [[Hu Hall]|[Hu (w & Hw & Huniq)]]; rewrite Hu; simpl.
  - split; [done |]. exists i. simpl. split.
    + by apply list_lookup_insert_eq.
    + intros j Hj. destruct (decide (j = i)) as [|Hne]; [done |].
      rewrite list_lookup_insert_ne in Hj by done.
      apply Hall in Hj. discriminate Hj.
  - split; [done |].
    assert (w ≠ i) by (intros ->; congruence).
    exists w. simpl. split.
    + by rewrite list_lookup_insert_ne.
    + intros j Hj. destruct (decide (j = i)) as [->|Hne].
      * rewrite list_lookup_insert_eq in Hj by done. discriminate Hj.
      * rewrite list_lookup_insert_ne in Hj by done. by apply Huniq.
Qed.

Lemma steps_invariant (s s' : race) :
  rtc step s s' → Spec.race_invariant s → Spec.race_invariant s'.
Proof. induction 1; eauto using step_invariant. Qed.

(** The race can always be run to its end: the attempts that are still
    pending are run one after the other. *)
Lemma race_completes (a : t) (ran todo : list attempt) :
  Pending ∉ ran →
  ∃ s, rtc step (Race a (ran ++ todo)) s ∧ quiescent s.
Proof.
  revert a ran. induction todo as [|x todo IH]; intros a ran Hran.
  - exists (Race a ran). rewrite app_nil_r. by split.
  - destruct x as [|o].
    + destruct (IH (consume a).2 (ran ++ [Finished (consume a).1])%list)
        as (s & Hs & Hq).
      { rewrite elem_of_app, list_elem_of_singleton. intros [?|?]; done. }
      exists s. split; [|done].
      eapply rtc_l; [|exact Hs].
      exists (length ran). split.
      * simpl. by apply list_lookup_middle.
      * rewrite run_attempt_pending by (simpl; by apply list_lookup_middle).
        simpl. f_equal.
        rewrite insert_app_r_alt by lia.
        rewrite Nat.sub_diag. simpl. by rewrite <- app_assoc.
    + destruct (IH a (ran ++ [Finished o])%list) as (s & Hs & Hq).
      { rewrite elem_of_app, list_elem_of_singleton. intros [?|?]; done. }
      exists s. split; [|done]. by rewrite <- app_assoc in Hs.
Qed.

(** C3: concurrent attempts to consume one unused token, run in any
    order, can always be run to the end, and then exactly one attempt
    has succeeded and every other has failed with [ApprovalTokenReused];
    once the token is used it stays used, whatever attempts follow. *)
Theorem approval_token_consumed_once (a : t) (callers : nat) :
  used a = false →
  (0 < callers)%nat →
  (∃ s, rtc step (start a callers) s ∧ quiescent s)
  ∧ (∀ s, rtc step (start a callers) s → quiescent s →
       used (shared s) = true
       ∧ ∃ winner,
           attempts s !! winner = Some (Finished Approved)
           ∧ ∀ j, (j < callers)%nat → j ≠ winner →
                  attempts s !! j = Some (Finished ApprovalTokenReused))
  ∧ (∀ s s', rtc step (start a callers) s → used (shared s) = true →
             rtc step s s' → used (shared s') = true).
Proof.
  intros Hu Hn. split_and!.
  - apply (race_completes a [] (replicate callers Pending)). apply not_elem_of_nil.
  - intros s Hs Hq.
    pose proof (steps_length _ _ Hs) as Hlen.
    simpl in Hlen. rewrite length_replicate in Hlen.
    destruct (steps_invariant _ _ Hs (start_invariant a callers Hu))
      as [[_ Hall]|[Hused (w & Hw & Huniq)]].
    + destruct (lookup_lt_is_Some_2 (attempts s) 0) as [x Hx]; [lia |].
      pose proof (Hall _ _ Hx) as ->.
      destruct Hq. by eapply list_elem_of_lookup_2.
    + split; [done |]. exists w. split; [done |].
      intros j Hj Hne.
      destruct (lookup_lt_is_Some_2 (attempts s) j) as [x Hx]; [lia |].
      destruct x as [|[|]]; [| |done].
      * destruct Hq. by eapply list_elem_of_lookup_2.
      * by apply Huniq in Hx.
  - intros s s' _ Hused Hs. by eapply steps_used.
Qed.

Lemma approval_token_consumed_once_witness :
  ∃ s, rtc step (start Samples.fresh_token 3) s ∧ quiescent s.
Proof.
  refine (proj1 (approval_token_consumed_once Samples.fresh_token 3 eq_refl _)).
  lia.
Defined.

End Approval.

(** * Further properties of [app.py] *)

Section PolicyAnswers.
Import App.

Ltac run := unfold mbind, M_bind, bind, mret, M_ret, ret, raise,
                   try_except, randint, logger, time_time, utcnow_isoformat;
            simpl.

Lemma risk_thresholds :
  RISK_THRESHOLDS !!! "low" = 30 ∧ RISK_THRESHOLDS !!! "medium" = 70.
Proof. split; vm_compute; reflexivity. Qed.

Lemma assess_risk_level_bands (s : Z) :
  (s < 30 → assess_risk_level s = "low")
  ∧ (30 ≤ s < 70 → assess_risk_level s = "medium")
  ∧ (70 ≤ s → assess_risk_level s = "high").
Proof.
  unfold assess_risk_level. destruct risk_thresholds as [-> ->].
  destruct (Z.ltb_spec s 30), (Z.ltb_spec s 70); split_and!; intros; try lia; done.
Qed.

(** What [generate_plan] builds for a request whose [intent] is an
    object. *)
Lemma generate_plan_object (m i : gmap string json) (s : Z) (lvl : string)
    (w : world) :
  m !! "intent" = Some (JObj i) →
  ∃ p, generate_plan (JObj m) s lvl w = (inr p, advance w)
    ∧ intent_id p = match i !! "intent_id" with
                    | Some v => inl v
                    | None => inr [FLit "intent_"; FInt (unix_time w)]
                    end
    ∧ timestamp p = utc_iso w +:+ "Z"
    ∧ score (plan_risk_assessment p) = s
    ∧ level (plan_risk_assessment p) = lvl
    ∧ approval_required p = bool_decide (lvl ∈ ["high"; "medium"])
    ∧ approval_reason p
      = (if approval_required p
         then Some [FLit (Str.capitalize lvl); FLit " risk action requires review"]
         else None)
    ∧ steps (plan_execution_plan p)
      = [Step 1 "validate" None None
              [FLit "Validate "; FJson (default (JStr "unknown") (i !! "action"));
               FLit " parameters"] true;
         Step 2 "execute" (Some (default (JStr "unknown") (i !! "action")))
              (Some (default (JObj ∅) (i !! "parameters")))
              [FLit "Execute "; FJson (default (JStr "unknown") (i !! "action"))] true;
         Step 3 "audit" None None
              [FLit "Log "; FJson (default (JStr "unknown") (i !! "action"));
               FLit " execution to audit trail"] true]
    ∧ estimated_duration_ms (plan_execution_plan p) = 300
    ∧ rollback_supported (plan_execution_plan p) = true
    ∧ evaluation_time_ms (plan_policy_metadata p) = next_randint 50 150 w.
Proof.
  intros H. unfold generate_plan, py_get, py_len. run. rewrite H. run.
  eexists. split; [reflexivity |]. simpl.
  split_and!; reflexivity.
Qed.

(** The four ways a request ends: refused by the guard; failed before the
    risk evaluation; failed in it; answered with a plan. *)
Lemma evaluate_policy_cases (context : json) (w : world) :
  evaluate_policy context w = (inr Spec.invalid_request, w)
  ∨ (∃ e, evaluate_policy context w
          = (inr (Spec.evaluation_failed e), logged (LogError e) w))
  ∨ (∃ e a, evaluate_policy context w
            = (inr (Spec.evaluation_failed e),
               logged (LogError e) (logged (LogEvaluating a) w)))
  ∨ (∃ m i s p,
       context = JObj m ∧ m !! "intent" = Some (JObj i)
       ∧ calculate_risk_score context
           (logged (LogEvaluating (default JNull (i !! "action"))) w)
         = (inr s, advance (logged (LogEvaluating (default JNull (i !! "action"))) w))
       ∧ generate_plan context s (assess_risk_level s)
           (advance (logged (LogEvaluating (default JNull (i !! "action"))) w))
         = (inr p, advance (advance
                     (logged (LogEvaluating (default JNull (i !! "action"))) w)))
       ∧ evaluate_policy context w
         = (inr (Response (PlanBody p) 200),
            logged (LogComplete (assess_risk_level s) s (approval_required p))
              (advance (advance
                 (logged (LogEvaluating (default JNull (i !! "action"))) w))))).
Proof.
  destruct context as [|b|n|x|str|l|m].
  - left. by apply evaluate_policy_falsy.
  - destruct b; [|left; by apply evaluate_policy_falsy].
    right; left. eexists. reflexivity.
  - destruct (Z.eqb_spec n 0) as [->|Hn]; [left; by apply evaluate_policy_falsy |].
    right; left. eexists. unfold evaluate_policy. run.
    rewrite (proj2 (Z.eqb_neq n 0) Hn). reflexivity.
  - destruct (py_truthy (JFloat x)) eqn:E; [|left; by apply evaluate_policy_falsy].
    right; left. eexists. unfold evaluate_policy. run.
    simpl in E. rewrite E. reflexivity.
  - destruct (py_truthy (JStr str)) eqn:E; [|left; by apply evaluate_policy_falsy].
    unfold evaluate_policy. run. simpl in E. rewrite E. run.
    destruct (Str.contains "intent" str); run.
    + right; left. eexists. reflexivity.
    + by left.
  - destruct (py_truthy (JArr l)) eqn:E; [|left; by apply evaluate_policy_falsy].
    unfold evaluate_policy. run. simpl in E. rewrite E. run.
    destruct (existsb _ l); run.
    + right; left. eexists. reflexivity.
    + by left.
  - destruct (m !! "intent") as [v|] eqn:H;
      [|left; by apply evaluate_policy_no_intent].
    assert (Hne : bool_decide (m = ∅) = false).
    { apply bool_decide_eq_false_2. intros ->. by rewrite lookup_empty in H. }
    assert (Hin : bool_decide (is_Some (m !! "intent")) = true).
    { apply bool_decide_eq_true_2. by rewrite H. }
    destruct v as [|b|n|x|str|l|i];
      try (right; left; eexists; unfold evaluate_policy, py_in, py_get; run;
           rewrite Hne; run; rewrite Hin; run; rewrite H; run; reflexivity).
    right; right.
    set (w1 := logged (LogEvaluating (default JNull (i !! "action"))) w).
    destruct (calculate_risk_score_cases (JObj m)) as [[e He]|[base Hb]].
    + left. exists e, (default JNull (i !! "action")).
      unfold evaluate_policy, py_in, py_get. run.
      rewrite Hne. run. rewrite Hin. run. rewrite H. run.
      fold w1. rewrite He. reflexivity.
    + right.
      destruct (generate_plan_object m i
                  (Z.max 0 (Z.min 100 (base + next_randint (-5) 10 w1)))
                  (assess_risk_level
                     (Z.max 0 (Z.min 100 (base + next_randint (-5) 10 w1))))
                  (advance w1) H) as (p & Hp & _).
      exists m, i, (Z.max 0 (Z.min 100 (base + next_randint (-5) 10 w1))), p.
      split_and!; try done.
      unfold evaluate_policy, py_in, py_get. run.
      rewrite Hne. run. rewrite Hin. run. rewrite H. run.
      fold w1. rewrite Hb. rewrite Hp. reflexivity.
Qed.

End PolicyAnswers.

Section PolicyProperties.
Import App.

Lemma calculate_risk_score_returns_in_range (context : json) (w w' : world) (s : Z) :
  calculate_risk_score context w = (inr s, w') → 0 ≤ s ≤ 100.
Proof.
  destruct (calculate_risk_score_cases context) as [[e H]|[base H]];
    rewrite H; intros [= <- _]. lia.
Qed.

(** Reading a plan answer back: the request was an object with an object
    under [intent], and the plan is the one [generate_plan] builds on a
    score between 0 and 100. *)
Lemma plan_answer_inv (context : json) (w w' : world) (r : response) (p : plan) :
  evaluate_policy context w = (inr r, w') →
  payload r = PlanBody p →
  ∃ m i s w1,
    context = JObj m ∧ m !! "intent" = Some (JObj i)
    ∧ r = Response (PlanBody p) 200
    ∧ 0 ≤ s ≤ 100
    ∧ unix_time w1 = unix_time w ∧ utc_iso w1 = utc_iso w
    ∧ generate_plan (JObj m) s (assess_risk_level s) w1 = (inr p, advance w1).
Proof.
  intros E P.
  destruct (evaluate_policy_cases context w)
    as [H|[[e H]|[(e & a & H)|(m & i & s & p' & -> & Hi & Hc & Hg & H)]]];
    rewrite H in E; injection E as <- <-; try discriminate P.
  simpl in P. injection P as ->.
  exists m, i, s, (advance (logged (LogEvaluating (default JNull (i !! "action"))) w)).
  pose proof (calculate_risk_score_returns_in_range _ _ _ _ Hc).
  split_and!; try done; lia.
Qed.

(** X1: the handler never lets an exception out: whatever the body, it
    answers, with status 200, 400 or 500; the answer carries a plan exactly
    when the status is 200, and only a body that is an object with an
    object under [intent] gets one. *)
Theorem evaluate_policy_always_answers (context : json) (w : world) :
  ∃ r w', evaluate_policy context w = (inr r, w')
    ∧ (status r = 200 ∨ status r = 400 ∨ status r = 500)
    ∧ (status r = 200 ↔ ∃ p, payload r = PlanBody p)
    ∧ (status r = 200 →
       ∃ m i, context = JObj m ∧ m !! "intent" = Some (JObj i)).
Proof.
  destruct (evaluate_policy_cases context w)
    as [H|[[e H]|[(e & a & H)|(m & i & s & p & -> & Hi & Hc & Hg & H)]]];
    eexists _, _; (split; [exact H |]); simpl.
  - split_and!; [auto | split; [done | by intros [p ?]] | done].
  - split_and!; [auto | split; [done | by intros [p ?]] | done].
  - split_and!; [auto | split; [done | by intros [p ?]] | done].
  - split_and!; [auto | split; eauto | eauto].
Qed.

(** X2: in every plan answered, the score lies between 0 and 100, the
    level is the band of the score (below 30 low, below 70 medium, high
    from 70 on), approval is required exactly from 30 on, and the reason
    given names the level, capitalised, and is absent below 30. *)
Theorem plan_approval_follows_score
    (context : json) (w w' : world) (r : response) (p : plan) :
  evaluate_policy context w = (inr r, w') →
  payload r = PlanBody p →
  0 ≤ score (plan_risk_assessment p) ≤ 100
  ∧ level (plan_risk_assessment p) = assess_risk_level (score (plan_risk_assessment p))
  ∧ (approval_required p = true ↔ 30 ≤ score (plan_risk_assessment p))
  ∧ (score (plan_risk_assessment p) < 30 → approval_reason p = None)
  ∧ (30 ≤ score (plan_risk_assessment p) < 70 →
     approval_reason p = Some [FLit "Medium"; FLit " risk action requires review"])
  ∧ (70 ≤ score (plan_risk_assessment p) →
     approval_reason p = Some [FLit "High"; FLit " risk action requires review"]).
Proof.
  intros E P.
  destruct (plan_answer_inv _ _ _ _ _ E P)
    as (m & i & s & w1 & -> & Hi & -> & Hs & _ & _ & Hg).
  destruct (generate_plan_object m i s (assess_risk_level s) w1 Hi)
    as (p' & Hg' & _ & _ & Hsc & Hl & Ha & Hr & _).
  rewrite Hg in Hg'. injection Hg' as <-.
  rewrite Hsc, Hl, Hr, Ha.
  destruct (assess_risk_level_bands s) as (Blow & Bmed & Bhigh).
  destruct (Z.lt_ge_cases s 30) as [L|L].
  - rewrite (Blow L). split_and!; try done; try lia.
    split; [discriminate | lia].
  - destruct (Z.lt_ge_cases s 70) as [M|M].
    + rewrite (Bmed (conj L M)). split_and!; try done; try lia.
    + rewrite (Bhigh M). split_and!; try done; try lia.
Qed.

Lemma plan_approval_follows_score_witness :
  evaluate_policy Samples.email_context Samples.world0
  = (inr MoreSamples.email_response, MoreSamples.email_world)
  ∧ payload MoreSamples.email_response = PlanBody MoreSamples.email_plan
  ∧ (approval_required MoreSamples.email_plan = true
     ↔ 30 ≤ score (plan_risk_assessment MoreSamples.email_plan)).
Proof.
  assert (E : evaluate_policy Samples.email_context Samples.world0
              = (inr MoreSamples.email_response, MoreSamples.email_world))
    by (vm_compute; reflexivity).
  assert (P : payload MoreSamples.email_response = PlanBody MoreSamples.email_plan)
    by (vm_compute; reflexivity).
  split_and!; [exact E | exact P |].
  exact (proj1 (proj2 (proj2 (plan_approval_follows_score _ _ _ _ _ E P)))).
Defined.

(** X3: every plan answered has the same three steps, validate, execute
    and audit, numbered 1 to 3 and all required; its estimated duration is
    100 ms a step, rollback is supported, and the evaluation time reported
    lies between 50 and 150. *)
Theorem plan_has_three_steps
    (context : json) (w w' : world) (r : response) (p : plan) :
  evaluate_policy context w = (inr r, w') →
  payload r = PlanBody p →
  step_id <$> steps (plan_execution_plan p) = [1; 2; 3]
  ∧ step_type <$> steps (plan_execution_plan p) = ["validate"; "execute"; "audit"]
  ∧ Forall (λ st, step_required st = true) (steps (plan_execution_plan p))
  ∧ estimated_duration_ms (plan_execution_plan p)
    = 100 * Z.of_nat (length (steps (plan_execution_plan p)))
  ∧ rollback_supported (plan_execution_plan p) = true
  ∧ 50 ≤ evaluation_time_ms (plan_policy_metadata p) ≤ 150.
Proof.
  intros E P.
  destruct (plan_answer_inv _ _ _ _ _ E P)
    as (m & i & s & w1 & -> & Hi & -> & Hs & _ & _ & Hg).
  destruct (generate_plan_object m i s (assess_risk_level s) w1 Hi)
    as (p' & Hg' & _ & _ & _ & _ & _ & _ & Hst & Hd & Hrb & Ht).
  rewrite Hg in Hg'. injection Hg' as <-.
  rewrite Hst, Hd, Hrb, Ht. split_and!; try reflexivity.
  - repeat constructor.
  - apply (next_randint_range 50 150 w1). lia.
  - apply (next_randint_range 50 150 w1). lia.
Qed.

Lemma plan_has_three_steps_witness :
  evaluate_policy Samples.email_context Samples.world0
  = (inr MoreSamples.email_response, MoreSamples.email_world)
  ∧ payload MoreSamples.email_response = PlanBody MoreSamples.email_plan
  ∧ step_id <$> steps (plan_execution_plan MoreSamples.email_plan) = [1; 2; 3].
Proof.
  assert (E : evaluate_policy Samples.email_context Samples.world0
              = (inr MoreSamples.email_response, MoreSamples.email_world))
    by (vm_compute; reflexivity).
  assert (P : payload MoreSamples.email_response = PlanBody MoreSamples.email_plan)
    by (vm_compute; reflexivity).
  split_and!; [exact E | exact P |].
  exact (proj1 (plan_has_three_steps _ _ _ _ _ E P)).
Defined.

(** X4: the plan answered echoes the request: its [intent_id] is the one
    of the request, or ["intent_"] followed by the clock's seconds when
    the request has none; its execute step carries the request's action
    (['unknown'] when missing) and parameters (an empty object when
    missing); its timestamp is the clock's, with [Z] appended. *)
Theorem plan_echoes_request
    (m i : gmap string json) (w w' : world) (r : response) (p : plan) :
  m !! "intent" = Some (JObj i) →
  evaluate_policy (JObj m) w = (inr r, w') →
  payload r = PlanBody p →
  (∀ v, i !! "intent_id" = Some v → intent_id p = inl v)
  ∧ (i !! "intent_id" = None
     → intent_id p = inr [FLit "intent_"; FInt (unix_time w)])
  ∧ timestamp p = utc_iso w +:+ "Z"
  ∧ ∃ st, steps (plan_execution_plan p) !! 1%nat = Some st
          ∧ step_type st = "execute"
          ∧ step_action st = Some (default (JStr "unknown") (i !! "action"))
          ∧ step_parameters st = Some (default (JObj ∅) (i !! "parameters")).
Proof.
  intros Hi E P.
  destruct (plan_answer_inv _ _ _ _ _ E P)
    as (m' & i' & s & w1 & [= <-] & Hi' & -> & Hs & Hu & Hz & Hg).
  rewrite Hi in Hi'. injection Hi' as <-.
  destruct (generate_plan_object m i s (assess_risk_level s) w1 Hi)
    as (p' & Hg' & Hid & Hts & _ & _ & _ & _ & Hst & _).
  rewrite Hg in Hg'. injection Hg' as <-.
  rewrite Hid, Hts, Hst, Hu, Hz. split_and!.
  - by intros v ->.
  - by intros ->.
  - reflexivity.
  - eexists. split; [reflexivity |]. done.
Qed.

Lemma plan_echoes_request_witness :
  evaluate_policy Samples.email_context Samples.world0
  = (inr MoreSamples.email_response, MoreSamples.email_world)
  ∧ payload MoreSamples.email_response = PlanBody MoreSamples.email_plan
  ∧ timestamp MoreSamples.email_plan = utc_iso Samples.world0 +:+ "Z".
Proof.
  assert (E : evaluate_policy Samples.email_context Samples.world0
              = (inr MoreSamples.email_response, MoreSamples.email_world))
    by (vm_compute; reflexivity).
  assert (P : payload MoreSamples.email_response = PlanBody MoreSamples.email_plan)
    by (vm_compute; reflexivity).
  split_and!; [exact E | exact P |].
  exact (proj1 (proj2 (proj2 (plan_echoes_request
                                 {[ "intent" := JObj MoreSamples.email_intent ]}
                                 MoreSamples.email_intent
                                 _ _ _ _ eq_refl E P)))).
Defined.

End PolicyProperties.

Section RiskBands.
Import App.

Lemma context_reads_email :
  Spec.context_reads Samples.email_context "send_email" "user123".
Proof.
  eexists _, _. split; [reflexivity |]. repeat split; vm_compute; reflexivity.
Qed.

Lemma action_risks_range : map_Forall (λ _ risk, 10 ≤ risk ≤ 95) ACTION_RISKS.
Proof.
  unfold ACTION_RISKS. simpl.
  repeat (apply map_Forall_insert_2; [lia |]).
  apply map_Forall_empty.
Qed.

Lemma table_risk_range (action : string) : 10 ≤ Spec.table_risk action ≤ 95.
Proof.
  unfold Spec.table_risk. destruct (ACTION_RISKS !! action) as [risk|] eqn:E; [|lia].
  exact (action_risks_range _ _ E).
Qed.

Lemma calculate_risk_score_trusted_user_helper
    (context : json) (action user_id : string) (w : world) :
  Spec.context_reads context action user_id →
  (Spec.trusted_user user_id →
     (calculate_risk_score context w).1
     = inr (Z.max 0 (Z.min 100 (Z.max 0 (Spec.table_risk action - 15)
                                + next_randint (-5) 10 w))))
  ∧ (¬ Spec.trusted_user user_id →
     (calculate_risk_score context w).1
     = inr (Z.max 0 (Z.min 100 (Spec.table_risk action
                                + next_randint (-5) 10 w)))).
Proof.
  intros H. rewrite (calculate_risk_score_reads _ _ _ _ H). simpl.
  pose proof (trusted_user_test user_id) as Htest.
  destruct (Str.contains "admin" (Str.lower user_id)
            || Str.contains "privileged" (Str.lower user_id)).
  - split; [done |]. intros Hn. destruct Hn. by apply Htest.
  - split; [|done]. intros Ht. apply Htest in Ht. discriminate Ht.
Qed.

(** X5: an action that is not in the table always scores between 30 and
    60, whoever asks and whatever is drawn: its level is always medium,
    so it always requires approval. *)
Theorem unknown_action_is_medium
    (context : json) (action user_id : string) (w : world) :
  Spec.context_reads context action user_id →
  ACTION_RISKS !! action = None →
  ∃ s, (calculate_risk_score context w).1 = inr s
       ∧ 30 ≤ s ≤ 60
       ∧ assess_risk_level s = "medium".
Proof.
  intros H Hn. rewrite (calculate_risk_score_reads _ _ _ _ H). simpl.
  unfold Spec.table_risk. rewrite Hn.
  pose proof (next_randint_range (-5) 10 w).
  eexists. split; [reflexivity |].
  assert (B : 30 ≤ Z.max 0 (Z.min 100
                ((if Str.contains "admin" (Str.lower user_id)
                     || Str.contains "privileged" (Str.lower user_id)
                  then Z.max 0 (50 - 15) else 50)
                 + next_randint (-5) 10 w)) ≤ 60).
  { destruct (_ || _); lia. }
  split; [exact B |].
  apply assess_risk_level_bands. lia.
Qed.

Lemma unknown_action_is_medium_witness :
  Spec.context_reads MoreSamples.unknown_context "launch_rocket" "user123"
  ∧ ACTION_RISKS !! "launch_rocket" = None
  ∧ ∃ s, (calculate_risk_score MoreSamples.unknown_context Samples.world0).1 = inr s
         ∧ 30 ≤ s ≤ 60
         ∧ assess_risk_level s = "medium".
Proof.
  assert (H : Spec.context_reads MoreSamples.unknown_context "launch_rocket" "user123").
  { eexists _, _. split; [reflexivity |]. repeat split; vm_compute; reflexivity. }
  assert (N : ACTION_RISKS !! "launch_rocket" = None) by (vm_compute; reflexivity).
  split_and!; [exact H | exact N |].
  exact (unknown_action_is_medium _ _ _ Samples.world0 H N).
Defined.

(** X6: the table decides the level at its two ends.  An action of table
    risk 90 or more is high for every user and every draw, trusted users
    included; an action of table risk below 20 is low for every user and
    every draw. *)
Theorem table_ends_fix_the_level
    (context : json) (action user_id : string) (w : world) :
  Spec.context_reads context action user_id →
  ∃ s, (calculate_risk_score context w).1 = inr s
       ∧ (90 ≤ Spec.table_risk action → assess_risk_level s = "high")
       ∧ (Spec.table_risk action < 20 → assess_risk_level s = "low").
Proof.
  intros H. rewrite (calculate_risk_score_reads _ _ _ _ H). cbn [fst].
  pose proof (next_randint_range (-5) 10 w).
  eexists. split; [reflexivity |].
  split; intros Ht; apply assess_risk_level_bands; destruct (_ || _); lia.
Qed.

Lemma table_ends_fix_the_level_witness :
  Spec.context_reads MoreSamples.funds_context "transfer_funds" "root-admin"
  ∧ ∃ s, (calculate_risk_score MoreSamples.funds_context Samples.world0).1 = inr s
         ∧ (90 ≤ Spec.table_risk "transfer_funds" → assess_risk_level s = "high")
         ∧ (Spec.table_risk "transfer_funds" < 20 → assess_risk_level s = "low").
Proof.
  assert (H : Spec.context_reads MoreSamples.funds_context "transfer_funds" "root-admin").
  { eexists _, _. split; [reflexivity |]. repeat split; vm_compute; reflexivity. }
  split; [exact H |].
  exact (table_ends_fix_the_level _ _ _ Samples.world0 H).
Defined.

(** X7: trust only lowers the score, and by 15 at most: for one action
    and one draw, the score of a trusted user is never above the score of
    another user and never more than 15 below it. *)
Theorem trust_lowers_by_at_most_15
    (c1 c2 : json) (action u1 u2 : string) (w1 w2 : world) :
  Spec.context_reads c1 action u1 →
  Spec.context_reads c2 action u2 →
  Spec.trusted_user u1 →
  ¬ Spec.trusted_user u2 →
  next_randint (-5) 10 w1 = next_randint (-5) 10 w2 →
  ∃ s1 s2, (calculate_risk_score c1 w1).1 = inr s1
           ∧ (calculate_risk_score c2 w2).1 = inr s2
           ∧ s2 - 15 ≤ s1 ≤ s2.
Proof.
  intros H1 H2 T1 T2 D.
  destruct (calculate_risk_score_trusted_user_helper c1 action u1 w1 H1) as [E1 _].
  destruct (calculate_risk_score_trusted_user_helper c2 action u2 w2 H2) as [_ E2].
  rewrite (E1 T1), (E2 T2), D.
  pose proof (table_risk_range action).
  eexists _, _. split_and!; try reflexivity; lia.
Qed.

Lemma trust_lowers_by_at_most_15_witness :
  Spec.trusted_user "Admin-7"
  ∧ ¬ Spec.trusted_user "user123"
  ∧ ∃ s1 s2,
      (calculate_risk_score Samples.admin_context Samples.world0).1 = inr s1
      ∧ (calculate_risk_score MoreSamples.delete_by_user Samples.world0).1 = inr s2
      ∧ s2 - 15 ≤ s1 ≤ s2.
Proof.
  assert (H1 : Spec.context_reads Samples.admin_context "delete_record" "Admin-7").
  { eexists _, _. split; [reflexivity |]. repeat split; vm_compute; reflexivity. }
  assert (H2 : Spec.context_reads MoreSamples.delete_by_user "delete_record" "user123").
  { eexists _, _. split; [reflexivity |]. repeat split; vm_compute; reflexivity. }
  assert (T1 : Spec.trusted_user "Admin-7").
  { left. exists EmptyString, "Admin", "-7". split; reflexivity. }
  assert (T2 : ¬ Spec.trusted_user "user123").
  { intros T. apply trusted_user_test in T. vm_compute in T. discriminate T. }
  split_and!; [exact T1 | exact T2 |].
  exact (trust_lowers_by_at_most_15 _ _ _ _ _ Samples.world0 Samples.world0
           H1 H2 T1 T2 eq_refl).
Defined.

End RiskBands.

Section Footprint.
Import App.

(** X8: what a request may touch.  The handler never changes the random
    tape nor the clock; it only appends to the log, two lines at most;
    and it consumes two draws when it answers 200 and none otherwise. *)
Theorem evaluate_policy_footprint (context : json) (w : world) :
  draws (evaluate_policy context w).2 = draws w
  ∧ unix_time (evaluate_policy context w).2 = unix_time w
  ∧ utc_iso (evaluate_policy context w).2 = utc_iso w
  ∧ (∃ added, log (evaluate_policy context w).2 = (log w ++ added)%list
              ∧ (length added ≤ 2)%nat)
  ∧ ((∃ r, (evaluate_policy context w).1 = inr r ∧ status r = 200)
     → cursor (evaluate_policy context w).2 = S (S (cursor w)))
  ∧ ((∀ r, (evaluate_policy context w).1 = inr r → status r ≠ 200)
     → cursor (evaluate_policy context w).2 = cursor w).
Proof.
  destruct (evaluate_policy_cases context w)
    as [H|[[e H]|[(e & a & H)|(m & i & s & p & -> & Hi & Hc & Hg & H)]]];
    rewrite H; simpl; split_and!; try reflexivity.
  - exists []. split; [by rewrite app_nil_r | simpl; lia].
  - by intros (r & [= <-] & ?).
  - eexists [_]. split; [reflexivity | simpl; lia].
  - by intros (r & [= <-] & ?).
  - eexists [_; _]. split; [by rewrite <- app_assoc | simpl; lia].
  - by intros (r & [= <-] & ?).
  - eexists [_; _]. split; [by rewrite <- app_assoc | simpl; lia].
  - intros Hn. by destruct (Hn _ eq_refl).
Qed.

Lemma existsb_intent (l : list json) :
  existsb (λ v, match v with JStr s => String.eqb s "intent" | _ => false end) l = true
  ↔ JStr "intent" ∈ l.
Proof.
  rewrite existsb_exists. split.
  - intros (v & Hin & Hv). destruct v; try discriminate Hv.
    apply String.eqb_eq in Hv as ->. by apply list_elem_of_In.
  - intros Hin. exists (JStr "intent"). split; [by apply list_elem_of_In |].
    apply String.eqb_refl.
Qed.

(** X9: bodies that are not objects.  An array is refused with 400
    unless the string ['intent'] is one of its elements, and a string
    unless it contains ['intent']; those pass the guard and fail with 500
    on their missing [get], and every integer other than zero and [true]
    fail with 500 on a [TypeError]; none of them is ever evaluated. *)
Theorem non_object_bodies (w : world) :
  (∀ l, JStr "intent" ∈ l →
     evaluate_policy (JArr l) w
     = (inr (Spec.evaluation_failed (AttributeError "list" "get")),
        logged (LogError (AttributeError "list" "get")) w))
  ∧ (∀ l, JStr "intent" ∉ l →
       evaluate_policy (JArr l) w = (inr Spec.invalid_request, w))
  ∧ (∀ s, (∃ pre post, s = pre +:+ "intent" +:+ post) →
       evaluate_policy (JStr s) w
       = (inr (Spec.evaluation_failed (AttributeError "str" "get")),
          logged (LogError (AttributeError "str" "get")) w))
  ∧ (∀ s, ¬ (∃ pre post, s = pre +:+ "intent" +:+ post) →
       evaluate_policy (JStr s) w = (inr Spec.invalid_request, w))
  ∧ (∀ n, n ≠ 0 →
       ∃ msg, evaluate_policy (JInt n) w
              = (inr (Spec.evaluation_failed (TypeError msg)),
                 logged (LogError (TypeError msg)) w))
  ∧ (∃ msg, evaluate_policy (JBool true) w
            = (inr (Spec.evaluation_failed (TypeError msg)),
               logged (LogError (TypeError msg)) w)).
Proof.
  split_and!.
  - intros l Hin. apply existsb_intent in Hin as Hex.
    unfold evaluate_policy, try_except, mbind, M_bind, bind. simpl.
    destruct l as [|v l]; [by apply elem_of_nil in Hin |]. simpl.
    simpl in Hex. unfold ret at 1. rewrite Hex. reflexivity.
  - intros l Hin.
    destruct (existsb (λ v, match v with JStr s => String.eqb s "intent" | _ => false end) l)
      eqn:Hex; [by apply existsb_intent in Hex |].
    unfold evaluate_policy, try_except, mbind, M_bind, bind. simpl.
    destruct l as [|v l]; [reflexivity |]. simpl.
    simpl in Hex. unfold ret at 1. rewrite Hex. reflexivity.
  - intros s Hs. apply contains_true in Hs.
    assert (Hne : String.eqb s EmptyString = false).
    { destruct s; [discriminate Hs | reflexivity]. }
    unfold evaluate_policy, try_except, mbind, M_bind, bind. simpl.
    rewrite Hne. simpl. unfold ret at 1. rewrite Hs. reflexivity.
  - intros s Hs.
    destruct (Str.contains "intent" s) eqn:Hc; [by apply contains_true in Hc |].
    unfold evaluate_policy, try_except, mbind, M_bind, bind. simpl.
    destruct (String.eqb s EmptyString); [reflexivity |]. simpl.
    unfold ret at 1. rewrite Hc. reflexivity.
  - intros n Hn. eexists.
    unfold evaluate_policy, try_except, mbind, M_bind, bind. simpl.
    rewrite (proj2 (Z.eqb_neq n 0) Hn). reflexivity.
  - eexists. reflexivity.
Qed.

End Footprint.

Section OtherHandlers.

(** X10: [store_memory] answers 200 exactly when [request.json] yields
    an object, and 500 otherwise (it has no 400): with the error
    [request.json] raised when it raises, as on an absent body, and with
    the [AttributeError] of the missing [get] when the body parsed is not
    an object, the literal [null] included.  It logs one line either way;
    and the answer to an object is made of the clock alone, so that two
    different objects stored within the same second get the same
    [memory_id]. *)
Theorem store_memory_answers (now : Memory.clock) (request_json : exn + json) :
  (Memory.status (Memory.store_memory_request now request_json).2 = 200
   ↔ ∃ m, request_json = inr (JObj m))
  ∧ (Memory.status (Memory.store_memory_request now request_json).2 = 200
     ∨ Memory.status (Memory.store_memory_request now request_json).2 = 500)
  ∧ (∀ e, request_json = inl e →
       Memory.store_memory_request now request_json
       = ([Memory.LogStoreError e], Memory.Response (Memory.Failed e) 500))
  ∧ (∀ data, request_json = inr data → (∀ m, data ≠ JObj m) →
       Memory.store_memory_request now request_json
       = ([Memory.LogStoreError (AttributeError (py_type_name data) "get")],
          Memory.Response
            (Memory.Failed (AttributeError (py_type_name data) "get")) 500))
  ∧ length (Memory.store_memory_request now request_json).1 = 1%nat
  ∧ (∀ m1 m2, (Memory.store_memory_request now (inr (JObj m1))).2
              = (Memory.store_memory_request now (inr (JObj m2))).2).
Proof.
  split_and!.
  - destruct request_json as [e|[]]; simpl; split; try done;
      try (by intros [? ?]). eauto.
  - destruct request_json as [e|[]]; simpl; auto.
  - by intros e ->.
  - intros data -> Hn. destruct data; try reflexivity. by destruct (Hn m).
  - by destruct request_json as [e|[]].
  - reflexivity.
Qed.


Import App.

(** X12: [analytics] always answers, consuming seven draws; its counters
    stay in their ranges (1000 to 5000 evaluations, 50 to 150 blocked
    actions) and its latency percentiles are ordered,
    [80 <= p50 <= 120 < 150 <= p95 <= 200 < 250 <= p99 <= 350]. *)
Theorem analytics_in_ranges (rounded_uniform : float → float → Z → Z → float)
    (w : world) :
  ∃ r w', Analytics.analytics rounded_uniform w = (inr r, w')
    ∧ cursor w' = (cursor w + 7)%nat
    ∧ log w' = log w
    ∧ 1000 ≤ Analytics.total_evaluations r ≤ 5000
    ∧ 50 ≤ Analytics.high_risk_actions_blocked r ≤ 150
    ∧ 80 ≤ Analytics.p50 (Analytics.evaluation_latency_ms r) ≤ 120
    ∧ 150 ≤ Analytics.p95 (Analytics.evaluation_latency_ms r) ≤ 200
    ∧ 250 ≤ Analytics.p99 (Analytics.evaluation_latency_ms r) ≤ 350
    ∧ Analytics.p50 (Analytics.evaluation_latency_ms r)
      < Analytics.p95 (Analytics.evaluation_latency_ms r)
      < Analytics.p99 (Analytics.evaluation_latency_ms r).
Proof.
  eexists _, _. split; [reflexivity |]. simpl.
  pose proof (next_randint_range 1000 5000 w).
  pose proof (next_randint_range 50 150 (advance (advance (advance w)))).
  pose proof (next_randint_range 80 120 (advance (advance (advance (advance w))))).
  pose proof (next_randint_range 150 200
                (advance (advance (advance (advance (advance w)))))).
  pose proof (next_randint_range 250 350
                (advance (advance (advance (advance (advance (advance w))))))).
  split_and!; try reflexivity; lia.
Qed.

End OtherHandlers.

(** * Further properties of the models and the client *)

Section Strategies.

Lemma literal_nil (field expected actual : string) :
  literal field expected actual = [] ↔ actual = expected.
Proof.
  unfold literal. destruct (String.eqb_spec actual expected); split; done.
Qed.

(** X13: a [RetryAltToolStrategy] is constructed exactly when its [type]
    is left out or is ['retry_alt_tool'] and [max_retries] is at least 1;
    the instance then carries that tag, the tool and the retries given. *)
Theorem retry_alt_tool_strategy_accepts
    (type : option string) (tool_name : string) (max_retries : Z) :
  ((type = None ∨ type = Some "retry_alt_tool") ∧ 1 ≤ max_retries
   ↔ ∃ s, RetryAltToolStrategy.new type tool_name max_retries = inr s)
  ∧ (∀ s, RetryAltToolStrategy.new type tool_name max_retries = inr s →
       RetryAltToolStrategy.type s = "retry_alt_tool"
       ∧ RetryAltToolStrategy.tool_name s = tool_name
       ∧ RetryAltToolStrategy.max_retries s = max_retries).
Proof.
  unfold RetryAltToolStrategy.new, RetryAltToolStrategy.model_validate.
  split.
  - split.
    + intros [Ht Hn]. eexists. apply construct_inr. split; [|reflexivity].
      unfold RetryAltToolStrategy.errors. simpl.
      apply app_nil. split; [|by apply ge_int_nil].
      apply literal_nil. by destruct Ht as [-> | ->].
    + intros [s Hs]. apply construct_inr in Hs as [He _].
      unfold RetryAltToolStrategy.errors in He. simpl in He.
      apply app_nil in He as [Hl Hg].
      apply literal_nil in Hl. apply ge_int_nil in Hg.
      split; [|done]. destruct type as [t|]; [right | by left].
      simpl in Hl. by rewrite Hl.
  - intros s Hs. apply construct_inr in Hs as [He <-].
    unfold RetryAltToolStrategy.errors in He. simpl in He.
    apply app_nil in He as [Hl _]. apply literal_nil in Hl. done.
Qed.

(** X14: the tag decides the variant.  A valid member of the
    [RecoveryStrategy] union carries one of the four tags, and it is the
    variant that its tag names; a retry strategy among them has at least
    one retry. *)
Theorem strategy_tag_decides_variant (s : RecoveryStrategy) :
  strategy_validate s = inr s →
  match s with
  | RetryAltTool r =>
      strategy_type s = "retry_alt_tool" ∧ 1 ≤ RetryAltToolStrategy.max_retries r
  | AskUser _ => strategy_type s = "ask_user"
  | Escalate _ => strategy_type s = "escalate"
  | Ignore _ => strategy_type s = "ignore"
  end
  ∧ ∀ s', strategy_validate s' = inr s' →
          strategy_type s' = strategy_type s →
          match s, s' with
          | RetryAltTool _, RetryAltTool _ | AskUser _, AskUser _
          | Escalate _, Escalate _ | Ignore _, Ignore _ => True
          | _, _ => False
          end.
Proof.
  assert (T : ∀ x, strategy_validate x = inr x →
              match x with
              | RetryAltTool r =>
                  strategy_type x = "retry_alt_tool"
                  ∧ 1 ≤ RetryAltToolStrategy.max_retries r
              | AskUser _ => strategy_type x = "ask_user"
              | Escalate _ => strategy_type x = "escalate"
              | Ignore _ => strategy_type x = "ignore"
              end).
  { intros x Hx. apply construct_inr in Hx as [He _].
    destruct x as [r|a|e|g]; simpl in *.
    - unfold RetryAltToolStrategy.errors in He.
      apply app_nil in He as [Hl Hg].
      apply literal_nil in Hl. by apply ge_int_nil in Hg.
    - by apply literal_nil in He.
    - by apply literal_nil in He.
    - by apply literal_nil in He. }
  intros Hs. split; [by apply T |].
  intros s' Hs' Heq. apply T in Hs. apply T in Hs'.
  destruct s, s'; try done; destruct_and?; congruence.
Qed.

Lemma strategy_tag_decides_variant_witness :
  strategy_type (AskUser (AskUserStrategy.Make "ask_user" "Proceed?")) = "ask_user".
Proof.
  exact (proj1 (strategy_tag_decides_variant
                  (AskUser (AskUserStrategy.Make "ask_user" "Proceed?")) eq_refl)).
Defined.

End Strategies.

Section ClientConstruction.
Import ClientSetup.

Lemma rstrip_decompose (chars s : string) :
  ∃ tail, s = rstrip chars s +:+ tail
          ∧ Forall (λ c, char_in c chars = true) (list_ascii_of_string tail).
Proof.
  induction s as [|c s (tail & Hs & Ht)]; simpl.
  - exists EmptyString. split; [reflexivity | constructor].
  - destruct (rstrip chars s) as [|d r] eqn:E.
    + rewrite append_nil in Hs. subst tail.
      destruct (char_in c chars) eqn:Hc.
      * exists (String c s). split; [reflexivity |]. simpl. by constructor.
      * exists s. split; [reflexivity | done].
    + exists tail. split; [|done].
      rewrite !append_cons. rewrite !append_cons in Hs. congruence.
Qed.

Lemma rstrip_last (chars s pre : string) (c : ascii) :
  rstrip chars s = pre +:+ String c EmptyString → char_in c chars = false.
Proof.
  revert pre. induction s as [|a s IH]; intros pre H; simpl in H.
  - destruct pre; [rewrite append_nil in H | rewrite append_cons in H];
      discriminate H.
  - destruct (rstrip chars s) as [|d r] eqn:E.
    + destruct (char_in a chars) eqn:Ha.
      * destruct pre; [rewrite append_nil in H | rewrite append_cons in H];
          discriminate H.
      * destruct pre as [|b pre].
        -- rewrite append_nil in H. injection H as <-. exact Ha.
        -- rewrite append_cons in H. injection H as _ H.
           destruct pre; [rewrite append_nil in H | rewrite append_cons in H];
             discriminate H.
    + destruct pre as [|b pre].
      * rewrite append_nil in H. discriminate H.
      * rewrite append_cons in H. injection H as _ H. by apply (IH pre).
Qed.

Lemma rstrip_idempotent (chars s : string) :
  rstrip chars (rstrip chars s) = rstrip chars s.
Proof.
  induction s as [|a s IH]; [reflexivity |]. simpl.
  destruct (rstrip chars s) as [|d r] eqn:E.
  - destruct (char_in a chars) eqn:Ha; [reflexivity |]. simpl. by rewrite Ha.
  - change (rstrip chars (String a (String d r)))
      with (match rstrip chars (String d r) with
            | EmptyString => if char_in a chars then EmptyString
                             else String a EmptyString
            | String d' r' => String a (String d' r')
            end).
    by rewrite IH.
Qed.

(** X15: the client's [base_url] is the URL given without its trailing
    slashes: the URL is the [base_url] followed by slashes only, the
    [base_url] does not end with a slash, and a URL that is already a
    [base_url] is kept as it is. *)
Theorem init_strips_trailing_slashes
    (url : string) (api_key : option string) (timeout : float) :
  (∃ slashes, url = base_url (init url api_key timeout) +:+ slashes
              ∧ Forall (λ c, c = "/"%char) (list_ascii_of_string slashes))
  ∧ (∀ pre, base_url (init url api_key timeout) ≠ pre +:+ "/")
  ∧ base_url (init (base_url (init url api_key timeout)) api_key timeout)
    = base_url (init url api_key timeout).
Proof.
  simpl. split_and!.
  - destruct (rstrip_decompose "/" url) as (tail & Hs & Ht).
    exists tail. split; [exact Hs |].
    eapply Forall_impl; [exact Ht |]. intros c Hc. simpl in Hc.
    apply orb_true_iff in Hc as [Hc|Hc]; [|discriminate Hc].
    by apply Ascii.eqb_eq in Hc.
  - intros pre H. apply rstrip_last in H. discriminate H.
  - apply rstrip_idempotent.
Qed.

(** X16: the headers of the client.  [Content-Type] is always
    [application/json]; [Authorization] is there exactly when a key that
    is not empty was given, and is then [Bearer ] followed by the key;
    there is no other header. *)
Theorem init_headers (url : string) (api_key : option string) (timeout : float) :
  headers (init url api_key timeout) !! "Content-Type" = Some "application/json"
  ∧ (∀ key, api_key = Some key → key ≠ EmptyString →
       headers (init url api_key timeout) !! "Authorization"
       = Some ("Bearer " +:+ key))
  ∧ (api_key = None ∨ api_key = Some EmptyString →
       headers (init url api_key timeout) !! "Authorization" = None)
  ∧ (∀ h, is_Some (headers (init url api_key timeout) !! h) →
          h = "Content-Type" ∨ h = "Authorization").
Proof.
  assert (D : ∀ h : string,
            is_Some (({[ "Content-Type" := "application/json" ]} : gmap string string) !! h)
            → h = "Content-Type" ∨ h = "Authorization").
  { intros h [v Hv]. apply lookup_singleton_Some in Hv as [<- _]. by left. }
  unfold init. simpl.
  destruct api_key as [key|]; [destruct (String.eqb_spec key EmptyString) as [->|Hk] |];
    simpl.
  - split_and!; [done | by intros k [= <-] | done | exact D].
  - split_and!.
    + by rewrite lookup_insert_ne.
    + intros k [= <-] _. apply lookup_insert_eq.
    + intros [H|[= H]]; [discriminate H | done].
    + intros h [v Hv]. destruct (decide (h = "Authorization")) as [|Hne]; [by right |].
      rewrite lookup_insert_ne in Hv by done. apply D. by exists v.
  - split_and!; [done | by intros k [= <-] | done | exact D].
Qed.

Lemma init_headers_witness :
  headers (init default_base_url (Some "test-key") default_timeout) !! "Authorization"
  = Some "Bearer test-key".
Proof.
  refine (proj1 (proj2 (init_headers default_base_url (Some "test-key")
                          default_timeout)) "test-key" eq_refl _).
  discriminate.
Defined.

(** X17: [request_approval] on a response with a success status whose
    body is an object returns the [approval_token] of the body, and the
    empty string, not an error, when the body has none; on any other
    status it raises [HTTPStatusError]. *)
Theorem request_approval_default_empty
    (post : string → ApprovalPayload → AureusClient.Response)
    (action : Action.t) (principal : Principal.t) (reason : string) :
  (200 ≤ AureusClient.status_code
           (post "/api/v1/policy/approval"
                 (MakeApprovalPayload action principal reason)) ≤ 299 →
   ∀ m, AureusClient.json_body
          (post "/api/v1/policy/approval"
                (MakeApprovalPayload action principal reason)) = JObj m →
     (m !! "approval_token" = None →
        request_approval post action principal reason = inr (JStr EmptyString))
     ∧ (∀ v, m !! "approval_token" = Some v →
          request_approval post action principal reason = inr v))
  ∧ (¬ 200 ≤ AureusClient.status_code
               (post "/api/v1/policy/approval"
                     (MakeApprovalPayload action principal reason)) ≤ 299 →
     request_approval post action principal reason
     = inl (HTTPStatusError
              (AureusClient.status_code
                 (post "/api/v1/policy/approval"
                       (MakeApprovalPayload action principal reason))))).
Proof.
  unfold request_approval, AureusClient.raise_for_status.
  set (response := post _ _).
  split.
  - intros [Hlo Hhi] m Hm.
    rewrite (proj2 (Z.leb_le _ _) Hlo), (proj2 (Z.leb_le _ _) Hhi). simpl.
    rewrite Hm. split; [intros -> | intros v ->]; reflexivity.
  - intros Hn.
    destruct (Z.leb_spec 200 (AureusClient.status_code response)),
             (Z.leb_spec (AureusClient.status_code response) 299);
      simpl; try reflexivity.
    lia.
Qed.

Lemma request_approval_default_empty_witness :
  request_approval (λ _ _, AureusClient.MakeResponse 200 (JObj ∅))
                   Samples.read_data Samples.principal "needed"
  = inr (JStr EmptyString).
Proof.
  refine (proj1 (proj1 (request_approval_default_empty
                          (λ _ _, AureusClient.MakeResponse 200 (JObj ∅))
                          Samples.read_data Samples.principal "needed")
                   _ ∅ eq_refl) eq_refl).
  simpl. lia.
Defined.

Lemma lookup_put (b : bool) (k k' : string) (v : param) (m : gmap string param) :
  (if b then <[k:=v]> m else m) !! k'
  = if b && bool_decide (k = k') then Some v else m !! k'.
Proof.
  destruct b; simpl; [|done]. case_bool_decide as E.
  - subst. apply lookup_insert_eq.
  - by apply lookup_insert_ne.
Qed.

Lemma given_string (v : option string) (x : string) :
  (if match v with
      | Some s => negb (String.eqb s EmptyString)
      | None => false
      end
   then Some (ParamStr (default EmptyString v)) else None) = Some (ParamStr x)
  ↔ v = Some x ∧ x ≠ EmptyString.
Proof.
  destruct v as [s|]; simpl.
  - destruct (String.eqb_spec s EmptyString) as [->|Hs]; simpl.
    + split; [done | by intros [[= <-] ?]].
    + split; [by intros [= <-] | by intros [[= <-] _]].
  - split; [done | by intros [? _]].
Qed.

(** The lookups of the query, key by key. *)
Lemma get_metrics_params_lookup
    (metric_name start_time end_time : option string)
    (tags : option (gmap string string)) (k : string) :
  get_metrics_params metric_name start_time end_time tags !! k
  = if bool_decide (k = "tags")
    then match tags with
         | Some m => if bool_decide (m = ∅) then None else Some (ParamDumps m)
         | None => None
         end
    else if bool_decide (k = "end_time")
    then if match end_time with
            | Some s => negb (String.eqb s EmptyString)
            | None => false
            end
         then Some (ParamStr (default EmptyString end_time)) else None
    else if bool_decide (k = "start_time")
    then if match start_time with
            | Some s => negb (String.eqb s EmptyString)
            | None => false
            end
         then Some (ParamStr (default EmptyString start_time)) else None
    else if bool_decide (k = "name")
    then if match metric_name with
            | Some s => negb (String.eqb s EmptyString)
            | None => false
            end
         then Some (ParamStr (default EmptyString metric_name)) else None
    else None.
Proof.
  unfold get_metrics_params. cbv zeta beta.
  set (b1 := match metric_name with Some s => _ | None => false end).
  set (b2 := match start_time with Some s => _ | None => false end).
  set (b3 := match end_time with Some s => _ | None => false end).
  destruct tags as [m|]; [case_bool_decide as Em |].
  - rewrite !lookup_put, lookup_empty.
    destruct b1, b2, b3; simpl; repeat case_bool_decide; subst; done.
  - rewrite lookup_insert. case_decide as Ek.
    + subst k. by rewrite bool_decide_eq_true_2.
    + rewrite !lookup_put, lookup_empty.
      destruct b1, b2, b3; simpl; repeat case_bool_decide; subst; done.
  - rewrite !lookup_put, lookup_empty.
    destruct b1, b2, b3; simpl; repeat case_bool_decide; subst; done.
Qed.

(** X18: the query of [get_metrics] holds a filter exactly when it was
    given and is not empty: an empty string or an empty tag dictionary is
    dropped like a missing one, and no other key is ever sent. *)
Theorem get_metrics_params_given
    (metric_name start_time end_time : option string)
    (tags : option (gmap string string)) :
  (∀ v, get_metrics_params metric_name start_time end_time tags !! "name"
        = Some (ParamStr v) ↔ metric_name = Some v ∧ v ≠ EmptyString)
  ∧ (∀ v, get_metrics_params metric_name start_time end_time tags !! "start_time"
          = Some (ParamStr v) ↔ start_time = Some v ∧ v ≠ EmptyString)
  ∧ (∀ v, get_metrics_params metric_name start_time end_time tags !! "end_time"
          = Some (ParamStr v) ↔ end_time = Some v ∧ v ≠ EmptyString)
  ∧ (∀ m, get_metrics_params metric_name start_time end_time tags !! "tags"
          = Some (ParamDumps m) ↔ tags = Some m ∧ m ≠ ∅)
  ∧ (∀ k, is_Some (get_metrics_params metric_name start_time end_time tags !! k) →
          k ∈ ["name"; "start_time"; "end_time"; "tags"]).
Proof.
  split_and!.
  - intros v. rewrite get_metrics_params_lookup. simpl. apply given_string.
  - intros v. rewrite get_metrics_params_lookup. simpl. apply given_string.
  - intros v. rewrite get_metrics_params_lookup. simpl. apply given_string.
  - intros m. rewrite get_metrics_params_lookup. simpl.
    destruct tags as [t|]; [case_bool_decide as Et |].
    + split; [done | intros [[= <-] ?]; done].
    + split; [by intros [= <-] | by intros [[= <-] _]].
    + split; [done | by intros [? _]].
  - intros k [x Hx]. rewrite get_metrics_params_lookup in Hx.
    rewrite !elem_of_cons. repeat case_bool_decide; try tauto. discriminate Hx.
Qed.

End ClientConstruction.

Section TaskAcceptance.

(** X19: a [TaskSpec] is constructed exactly when its [timeout_ms], if
    given, is at least 1 and its retry configuration, if given, has
    [max_attempts >= 1], [backoff_ms >= 1] and no negative multiplier;
    nothing else about a task is checked, so that changing any other
    field never turns an accepted task into a rejected one. *)
Theorem task_spec_accepted_iff (t : TaskSpec.t) :
  (TaskSpec.model_validate t = inr t
   ↔ (∀ n, TaskSpec.timeout_ms t = Some n → 1 ≤ n)
     ∧ (∀ r, TaskSpec.retry t = Some r → Spec.retry_bounds r))
  ∧ (∀ t', TaskSpec.timeout_ms t' = TaskSpec.timeout_ms t →
           TaskSpec.retry t' = TaskSpec.retry t →
           TaskSpec.model_validate t = inr t →
           TaskSpec.model_validate t' = inr t').
Proof.
  assert (A : ∀ x, TaskSpec.model_validate x = inr x
                   ↔ (∀ n, TaskSpec.timeout_ms x = Some n → 1 ≤ n)
                     ∧ (∀ r, TaskSpec.retry x = Some r → Spec.retry_bounds r)).
  { intros x. unfold TaskSpec.model_validate.
    rewrite construct_inr, task_errors_nil. tauto. }
  split; [apply A |].
  intros t' Ht Hr Hv. apply A. apply A in Hv. by rewrite Ht, Hr.
Qed.

End TaskAcceptance.
